(** * Live connection manager: a shallow embedding of [WebSocketManager]

    The development models the dashboard's WebSocket client
    (components/websocket.js) together with the URL helper it calls
    (components/config.js).  The manager is a JavaScript object whose
    methods and transport callbacks mutate its fields, create sockets and
    arm host timers; here this is written as state passing over a [World]
    that holds the manager's fields, the socket objects created so far, the
    host's timer table, a millisecond clock and the trace of observable
    effects (listener invocations, console output, promise settlement).

    Conventions.  Socket objects are kept by identity in a list, so a
    socket the manager has dropped still exists and still delivers events
    to the callbacks installed on it.  Timer closures are the three
    constructors of [TimerTask]; handles are positive numbers, hence truthy.
    Registered callbacks are opaque identifiers: invoking one is recorded in
    the trace, it may throw (the host says so), and it does not call back
    into the manager.  [JSON.parse], [JSON.stringify] and the WebSocket
    constructor belong to the host and are fields of [Host]. *)

From Stdlib Require Import ZArith Lia Ascii String DecimalString DecimalN.
From stdpp Require Import base tactics option list strings.

Local Open Scope Z_scope.
Local Open Scope string_scope.
Local Open Scope list_scope.

(** ** JSON values as produced by [JSON.parse] *)

#[warnings="-register-all"]
Inductive json : Type :=
| JNull
| JBool (b : bool)
| JNum (n : Z)
| JStr (s : string)
| JArr (items : list json)
| JObj (fields : list (string * json)).

(** Property lookup on an object literal (keys of a parsed object are
    unique, so the first binding is the binding). *)
Fixpoint assoc (key : string) (fields : list (string * json)) : option json :=
  match fields with
  | [] => None
  | (k, v) :: rest => if String.eqb k key then Some v else assoc key rest
  end.

(** [data.type]: reading a property of [null] throws a TypeError ([None]);
    on an object it is the bound value or [undefined]; on any other value
    it is [undefined]. *)
Inductive member : Type :=
| Undefined
| Value (v : json).

Definition get_type (data : json) : option member :=
  match data with
  | JNull => None
  | JObj fields =>
      Some (match assoc "type" fields with Some v => Value v | None => Undefined end)
  | _ => Some Undefined
  end.

(** [m === 'pong'] *)
Definition is_pong (m : member) : bool :=
  match m with
  | Value (JStr s) => String.eqb s "pong"
  | _ => false
  end.

(** ** The host environment

    Everything the two modules read from the browser: the two environment
    objects consulted by [getEnvVar], [window.location], the JSON codec,
    whether [new WebSocket(url)] accepts a URL, and whether a registered
    callback throws when invoked. *)

Record Host : Type := {
  import_meta_env : option (list (string * string));
  window_ENV : option (list (string * string));
  location_protocol : string;
  location_hostname : string;
  location_port : string;
  JSON_parse : string -> option json;
  JSON_stringify : json -> option string;
  WebSocket_accepts : string -> bool;
  connection_listener_throws : nat -> string -> bool;
  message_listener_throws : nat -> json -> bool
}.

(** ** components/config.js *)

Module Config.

Fixpoint env_lookup (key : string) (env : list (string * string)) : option string :=
  match env with
  | [] => None
  | (k, v) :: rest => if String.eqb k key then Some v else env_lookup key rest
  end.

(** JavaScript truthiness of a string. *)
Definition truthy (s : string) : bool :=
  match s with
  | EmptyString => false
  | _ => true
  end.

Definition truthy_entry (key : string) (env : option (list (string * string))) : option string :=
  match env with
  | Some e =>
      match env_lookup key e with
      | Some v => if truthy v then Some v else None
      | None => None
      end
  | None => None
  end.

Definition getEnvVar (h : Host) (key defaultValue : string) : string :=
  match truthy_entry key (import_meta_env h) with
  | Some v => v
  | None =>
      match truthy_entry key (window_ENV h) with
      | Some v => v
      | None => defaultValue
      end
  end.

(** [path.startsWith('/') ? path.substring(1) : path] *)
Definition cleanPath (path : string) : string :=
  match path with
  | String c rest => if Ascii.eqb c "/"%char then rest else path
  | EmptyString => path
  end.

(** [s.replace(/\/$/, '')]: drop one slash at the very end. *)
Fixpoint strip_trailing_slash (s : string) : string :=
  match s with
  | EmptyString => EmptyString
  | String c rest =>
      match rest with
      | EmptyString => if Ascii.eqb c "/"%char then EmptyString else s
      | _ => String c (strip_trailing_slash rest)
      end
  end.

Definition sameOriginWsUrl (h : Host) : string :=
  let protocol := if String.eqb (location_protocol h) "https:" then "wss:" else "ws:" in
  let port := location_port h in
  protocol +:+ "//" +:+ location_hostname h
    +:+ (if truthy port then ":" +:+ port else EmptyString) +:+ "/ws".

Definition buildWsUrl (h : Host) (path : string) : string :=
  let configured := getEnvVar h "VITE_WS_URL" EmptyString in
  let baseWsUrl := if truthy configured then configured else sameOriginWsUrl h in
  strip_trailing_slash baseWsUrl +:+ "/" +:+ cleanPath path.

(** [buildApiUrl]: the same joining with the page's own scheme and [/api]. *)
Definition sameOriginApiUrl (h : Host) : string :=
  let protocol := if String.eqb (location_protocol h) "https:" then "https:" else "http:" in
  let port := location_port h in
  protocol +:+ "//" +:+ location_hostname h
    +:+ (if truthy port then ":" +:+ port else EmptyString) +:+ "/api".

Definition buildApiUrl (h : Host) (path : string) : string :=
  let configured := getEnvVar h "VITE_API_URL" EmptyString in
  let baseApiUrl := if truthy configured then configured else sameOriginApiUrl h in
  strip_trailing_slash baseApiUrl +:+ "/" +:+ cleanPath path.

Record EnvConfig : Type := {
  API_URL : string;
  WS_URL : string;
  NODE_ENV : string
}.

Definition getEnvConfig (h : Host) : EnvConfig :=
  {| API_URL := getEnvVar h "VITE_API_URL" EmptyString;
     WS_URL := getEnvVar h "VITE_WS_URL" EmptyString;
     NODE_ENV := getEnvVar h "NODE_ENV" "development" |}.

Definition isDevelopment (h : Host) : bool :=
  String.eqb (getEnvVar h "NODE_ENV" "development") "development".

Definition isProduction (h : Host) : bool :=
  String.eqb (getEnvVar h "NODE_ENV" "development") "production".

End Config.

(** ** Sockets, timers, effects *)

(** [WebSocket.CONNECTING], [OPEN], [CLOSING], [CLOSED]. *)
Definition CONNECTING : nat := 0%nat.
Definition OPEN : nat := 1%nat.
Definition CLOSING : nat := 2%nat.
Definition CLOSED : nat := 3%nat.

Record Socket : Type := {
  url : string;
  readyState : nat;
  sent : list string;              (* frames handed to ws.send, oldest first *)
  close_requested : option (Z * string);  (* arguments of ws.close, if called *)
  error_fired : bool;
  close_fired : bool
}.

(** The three closures the manager hands to [setInterval]/[setTimeout]. *)
Inductive TimerTask : Type :=
| HeartbeatPing      (* () => this.send({ type: 'ping' }) *)
| HeartbeatTimeout   (* () => { this.disconnect(); this.scheduleReconnect(); } *)
| Reconnect.         (* () => { this.reconnectAttempts++; this.connect(); } *)

Record Timer : Type := {
  timer_id : positive;
  task : TimerTask;
  delay : Z;          (* milliseconds passed to setTimeout/setInterval *)
  due : Z;            (* clock value at which it may next fire *)
  repeating : bool    (* armed by setInterval *)
}.

Inductive DomEvent : Type :=
| OpenEvent
| CloseEvent (code : Z) (reason : string)
| ErrorEvent.

Inductive ConsoleMsg : Type :=
| LogConnecting (wsUrl : string)
| LogConnected
| LogDisconnected (code : Z) (reason : string)
| ErrWebSocket
| ErrSendFailed
| WarnNotConnected
| ErrParseFailed
| WarnHeartbeatTimeout
| ErrMaxReconnect
| LogReconnecting (delay_ms : Z) (attempt : nat)
| ErrConnectionListener
| ErrMessageListener.

Inductive Effect : Type :=
| CallConnectionListener (cb : nat) (state : string) (event : DomEvent)
| CallMessageListener (cb : nat) (data : json)
| Console (msg : ConsoleMsg)
| PromiseResolve (sock : nat)     (* resolve() of the connect that made [sock] *)
| PromiseReject (sock : nat).     (* reject(error) of that connect *)

(** ** The manager's fields and the world around it *)

Record Manager : Type := {
  ws : option nat;                      (* this.ws: null or a socket object *)
  reconnectAttempts : nat;
  isConnecting : bool;
  connectionListeners : list nat;       (* a Set, in insertion order *)
  messageListeners : list nat;
  heartbeatInterval : option positive;  (* timer handles, null when unset *)
  heartbeatTimeout : option positive;
  reconnectTimeout : option positive
}.

(** Fields the constructor sets and no method assigns afterwards. *)
Definition reconnectInterval : Z := 5000.
Definition maxReconnectAttempts : nat := 10%nat.

Record World : Type := {
  mgr : Manager;
  sockets : list Socket;     (* every WebSocket constructed, by identity *)
  timers : list Timer;       (* the host's pending timers *)
  next_timer : positive;     (* next handle the host will return *)
  clock : Z;                 (* milliseconds *)
  trace : list Effect        (* observable effects, oldest first *)
}.

Definition new_manager : Manager :=
  {| ws := None; reconnectAttempts := 0%nat; isConnecting := false;
     connectionListeners := []; messageListeners := [];
     heartbeatInterval := None; heartbeatTimeout := None;
     reconnectTimeout := None |}.

Definition initial_world : World :=
  {| mgr := new_manager; sockets := []; timers := []; next_timer := 1%positive;
     clock := 0; trace := [] |}.

(** Field updates. *)
Definition with_mgr (f : Manager -> Manager) (w : World) : World :=
  {| mgr := f (mgr w); sockets := sockets w; timers := timers w;
     next_timer := next_timer w; clock := clock w; trace := trace w |}.

Definition set_ws (v : option nat) (m : Manager) : Manager :=
  {| ws := v; reconnectAttempts := reconnectAttempts m; isConnecting := isConnecting m;
     connectionListeners := connectionListeners m; messageListeners := messageListeners m;
     heartbeatInterval := heartbeatInterval m; heartbeatTimeout := heartbeatTimeout m;
     reconnectTimeout := reconnectTimeout m |}.

Definition set_reconnectAttempts (v : nat) (m : Manager) : Manager :=
  {| ws := ws m; reconnectAttempts := v; isConnecting := isConnecting m;
     connectionListeners := connectionListeners m; messageListeners := messageListeners m;
     heartbeatInterval := heartbeatInterval m; heartbeatTimeout := heartbeatTimeout m;
     reconnectTimeout := reconnectTimeout m |}.

Definition set_isConnecting (v : bool) (m : Manager) : Manager :=
  {| ws := ws m; reconnectAttempts := reconnectAttempts m; isConnecting := v;
     connectionListeners := connectionListeners m; messageListeners := messageListeners m;
     heartbeatInterval := heartbeatInterval m; heartbeatTimeout := heartbeatTimeout m;
     reconnectTimeout := reconnectTimeout m |}.

Definition set_connectionListeners (v : list nat) (m : Manager) : Manager :=
  {| ws := ws m; reconnectAttempts := reconnectAttempts m; isConnecting := isConnecting m;
     connectionListeners := v; messageListeners := messageListeners m;
     heartbeatInterval := heartbeatInterval m; heartbeatTimeout := heartbeatTimeout m;
     reconnectTimeout := reconnectTimeout m |}.

Definition set_messageListeners (v : list nat) (m : Manager) : Manager :=
  {| ws := ws m; reconnectAttempts := reconnectAttempts m; isConnecting := isConnecting m;
     connectionListeners := connectionListeners m; messageListeners := v;
     heartbeatInterval := heartbeatInterval m; heartbeatTimeout := heartbeatTimeout m;
     reconnectTimeout := reconnectTimeout m |}.

Definition set_heartbeatInterval (v : option positive) (m : Manager) : Manager :=
  {| ws := ws m; reconnectAttempts := reconnectAttempts m; isConnecting := isConnecting m;
     connectionListeners := connectionListeners m; messageListeners := messageListeners m;
     heartbeatInterval := v; heartbeatTimeout := heartbeatTimeout m;
     reconnectTimeout := reconnectTimeout m |}.

Definition set_heartbeatTimeout (v : option positive) (m : Manager) : Manager :=
  {| ws := ws m; reconnectAttempts := reconnectAttempts m; isConnecting := isConnecting m;
     connectionListeners := connectionListeners m; messageListeners := messageListeners m;
     heartbeatInterval := heartbeatInterval m; heartbeatTimeout := v;
     reconnectTimeout := reconnectTimeout m |}.

Definition set_reconnectTimeout (v : option positive) (m : Manager) : Manager :=
  {| ws := ws m; reconnectAttempts := reconnectAttempts m; isConnecting := isConnecting m;
     connectionListeners := connectionListeners m; messageListeners := messageListeners m;
     heartbeatInterval := heartbeatInterval m; heartbeatTimeout := heartbeatTimeout m;
     reconnectTimeout := v |}.

Definition with_sockets (f : list Socket -> list Socket) (w : World) : World :=
  {| mgr := mgr w; sockets := f (sockets w); timers := timers w;
     next_timer := next_timer w; clock := clock w; trace := trace w |}.

Definition with_timers (f : list Timer -> list Timer) (w : World) : World :=
  {| mgr := mgr w; sockets := sockets w; timers := f (timers w);
     next_timer := next_timer w; clock := clock w; trace := trace w |}.

Definition with_clock (f : Z -> Z) (w : World) : World :=
  {| mgr := mgr w; sockets := sockets w; timers := timers w;
     next_timer := next_timer w; clock := f (clock w); trace := trace w |}.

Definition set_readyState (v : nat) (s : Socket) : Socket :=
  {| url := url s; readyState := v; sent := sent s;
     close_requested := close_requested s;
     error_fired := error_fired s; close_fired := close_fired s |}.

(** ** A state monad for method bodies *)

Definition M (A : Type) : Type := World -> A * World.

Definition ret {A} (a : A) : M A := fun w => (a, w).
Definition bind {A B} (c : M A) (k : A -> M B) : M B :=
  fun w => let (a, w1) := c w in k a w1.

Notation "x <- c ;; k" := (bind c (fun x => k))
  (at level 90, c at level 89, right associativity).
Notation "c ;;; k" := (bind c (fun _ => k))
  (at level 90, right associativity).

Definition get_mgr : M Manager := fun w => (mgr w, w).
Definition update_mgr (f : Manager -> Manager) : M unit := fun w => (tt, with_mgr f w).
Definition log (es : list Effect) (w : World) : World :=
  {| mgr := mgr w; sockets := sockets w; timers := timers w;
     next_timer := next_timer w; clock := clock w; trace := trace w ++ es |}.
Definition emit (e : Effect) : M unit := fun w => (tt, log [e] w).
Definition when (b : bool) (c : M unit) : M unit := if b then c else ret tt.

Fixpoint for_each {A} (l : list A) (body : A -> M unit) : M unit :=
  match l with
  | [] => ret tt
  | x :: rest => body x ;;; for_each rest body
  end.

Definition exec {A} (c : M A) (w : World) : World := snd (c w).
Definition result {A} (c : M A) (w : World) : A := fst (c w).

Definition gets {A} (f : World -> A) : M A := fun w => (f w, w).

(** ** Host primitives: timers and sockets *)

Definition arm (rep : bool) (t : TimerTask) (ms : Z) : M positive :=
  fun w =>
    let id := next_timer w in
    (id, {| mgr := mgr w; sockets := sockets w;
            timers := timers w ++ [{| timer_id := id; task := t; delay := ms;
                                      due := clock w + ms; repeating := rep |}];
            next_timer := Pos.succ id; clock := clock w; trace := trace w |}).

Definition setTimeout : TimerTask -> Z -> M positive := arm false.
Definition setInterval : TimerTask -> Z -> M positive := arm true.

Definition cancel (id : positive) (l : list Timer) : list Timer :=
  filter (fun t => timer_id t <> id) l.

(** [clearTimeout]/[clearInterval]: one handle space, unknown handles ignored. *)
Definition clearTimer (id : positive) : M unit :=
  fun w => (tt, with_timers (cancel id) w).

Definition fresh_socket (u : string) : Socket :=
  {| url := u; readyState := CONNECTING; sent := [];
     close_requested := None; error_fired := false; close_fired := false |}.

Definition new_WebSocket (u : string) : M nat :=
  fun w => (length (sockets w), with_sockets (fun l => l ++ [fresh_socket u]) w).

(** [sock.readyState]; a manager field only ever holds a constructed socket
    (see [ws_bound] below), the default is never used on reachable worlds. *)
Definition readyState_of (k : nat) (w : World) : nat :=
  match sockets w !! k with
  | Some s => readyState s
  | None => CLOSED
  end.

(** [sock.send(text)] on an open socket. *)
Definition push_frame (text : string) (s : Socket) : Socket :=
  {| url := url s; readyState := readyState s; sent := sent s ++ [text];
     close_requested := close_requested s;
     error_fired := error_fired s; close_fired := close_fired s |}.

Definition ws_send (k : nat) (text : string) : M unit :=
  fun w => (tt, with_sockets (alter (push_frame text) k) w).

(** [sock.close(code, reason)]: starts the closing handshake unless the
    socket is already closing or closed. *)
Definition start_close (code : Z) (reason : string) (s : Socket) : Socket :=
  if (readyState s =? CLOSING)%nat || (readyState s =? CLOSED)%nat then s
  else {| url := url s; readyState := CLOSING; sent := sent s;
          close_requested := Some (code, reason);
          error_fired := error_fired s; close_fired := close_fired s |}.

Definition ws_close (k : nat) (code : Z) (reason : string) : M unit :=
  fun w => (tt, with_sockets (alter (start_close code reason) k) w).

(** [this.ws && this.ws.readyState === WebSocket.OPEN], as a condition. *)
Definition ws_is_open (w : World) : bool :=
  match ws (mgr w) with
  | Some k => (readyState_of k w =? OPEN)%nat
  | None => false
  end.

(** [Math.min(1000 * Math.pow(2, n), 30000)] *)
Definition backoff (n : nat) : Z := Z.min (1000 * 2 ^ Z.of_nat n) 30000.

(** The Set operations used on the two listener sets. *)
Definition set_add (cb : nat) (l : list nat) : list nat :=
  if decide (cb ∈ l) then l else l ++ [cb].
Definition set_delete (cb : nat) (l : list nat) : list nat :=
  filter (fun x => x <> cb) l.

Inductive ConnectPromise : Type :=
| Resolved               (* Promise.resolve() *)
| Pending (sock : nat)   (* settled later by an event of [sock] *)
| Rejected.              (* the executor's catch branch called reject *)

(** ** The methods of [WebSocketManager] *)

Section Methods.

Variable h : Host.

Definition addConnectionListener (cb : nat) : M unit :=
  update_mgr (fun m => set_connectionListeners (set_add cb (connectionListeners m)) m).

Definition removeConnectionListener (cb : nat) : M unit :=
  update_mgr (fun m => set_connectionListeners (set_delete cb (connectionListeners m)) m).

Definition addMessageListener (cb : nat) : M unit :=
  update_mgr (fun m => set_messageListeners (set_add cb (messageListeners m)) m).

Definition removeMessageListener (cb : nat) : M unit :=
  update_mgr (fun m => set_messageListeners (set_delete cb (messageListeners m)) m).

Definition notifyConnectionListeners (state : string) (event : DomEvent) : M unit :=
  m <- get_mgr ;;
  for_each (connectionListeners m) (fun cb =>
    emit (CallConnectionListener cb state event) ;;;
    when (connection_listener_throws h cb state)
         (emit (Console ErrConnectionListener))).

Definition notifyMessageListeners (data : json) : M unit :=
  m <- get_mgr ;;
  for_each (messageListeners m) (fun cb =>
    emit (CallMessageListener cb data) ;;;
    when (message_listener_throws h cb data)
         (emit (Console ErrMessageListener))).

Definition send (data : json) : M bool :=
  w <- gets id ;;
  if ws_is_open w then
    match ws (mgr w), JSON_stringify h data with
    | Some k, Some text => ws_send k text ;;; ret true
    | _, _ => emit (Console ErrSendFailed) ;;; ret false
    end
  else
    emit (Console WarnNotConnected) ;;; ret false.

Definition stopHeartbeat : M unit :=
  m <- get_mgr ;;
  match heartbeatInterval m with
  | Some i => clearTimer i ;;; update_mgr (set_heartbeatInterval None)
  | None => ret tt
  end ;;;
  m <- get_mgr ;;
  match heartbeatTimeout m with
  | Some t => clearTimer t ;;; update_mgr (set_heartbeatTimeout None)
  | None => ret tt
  end.

Definition resetHeartbeatTimeout : M unit :=
  m <- get_mgr ;;
  match heartbeatTimeout m with
  | Some t => clearTimer t
  | None => ret tt
  end ;;;
  t <- setTimeout HeartbeatTimeout 35000 ;;
  update_mgr (set_heartbeatTimeout (Some t)).

Definition startHeartbeat : M unit :=
  stopHeartbeat ;;;
  i <- setInterval HeartbeatPing 30000 ;;
  update_mgr (set_heartbeatInterval (Some i)) ;;;
  resetHeartbeatTimeout.

Definition scheduleReconnect : M unit :=
  m <- get_mgr ;;
  if (maxReconnectAttempts <=? reconnectAttempts m)%nat then
    emit (Console ErrMaxReconnect)
  else
    let d := backoff (reconnectAttempts m) in
    emit (Console (LogReconnecting d (reconnectAttempts m + 1)%nat)) ;;;
    t <- setTimeout Reconnect d ;;
    update_mgr (set_reconnectTimeout (Some t)).

Definition disconnect : M unit :=
  m <- get_mgr ;;
  match reconnectTimeout m with
  | Some t => clearTimer t ;;; update_mgr (set_reconnectTimeout None)
  | None => ret tt
  end ;;;
  stopHeartbeat ;;;
  m <- get_mgr ;;
  match ws m with
  | Some k => ws_close k 1000 "Client disconnect" ;;; update_mgr (set_ws None)
  | None => ret tt
  end.

Definition handleMessage (text : string) : M unit :=
  match JSON_parse h text with
  | None => emit (Console ErrParseFailed)
  | Some data =>
      notifyMessageListeners data ;;;
      match get_type data with
      | None => emit (Console ErrParseFailed)   (* TypeError, same catch *)
      | Some t => when (is_pong t) resetHeartbeatTimeout
      end
  end.

(** [connect(path = '/ws')]; [None] is a call without argument.  The
    promise executor runs synchronously, so the whole body is one step. *)
Definition connect (path : option string) : M ConnectPromise :=
  w <- gets id ;;
  if isConnecting (mgr w) || ws_is_open w then ret Resolved
  else
    update_mgr (set_isConnecting true) ;;;
    let wsUrl := Config.buildWsUrl h (default "/ws" path) in
    emit (Console (LogConnecting wsUrl)) ;;;
    if WebSocket_accepts h wsUrl then
      k <- new_WebSocket wsUrl ;;
      update_mgr (set_ws (Some k)) ;;;
      ret (Pending k)
    else
      update_mgr (set_isConnecting false) ;;;
      ret Rejected.

(** The four callbacks [connect] installs on the socket it creates; [k]
    is that socket, whose promise [resolve]/[reject] they close over. *)
Definition onopen (k : nat) : M unit :=
  emit (Console LogConnected) ;;;
  update_mgr (set_isConnecting false) ;;;
  update_mgr (set_reconnectAttempts 0) ;;;
  startHeartbeat ;;;
  notifyConnectionListeners "connected" OpenEvent ;;;
  emit (PromiseResolve k).

Definition onmessage (text : string) : M unit := handleMessage text.

Definition onclose (code : Z) (reason : string) : M unit :=
  emit (Console (LogDisconnected code reason)) ;;;
  update_mgr (set_isConnecting false) ;;;
  stopHeartbeat ;;;
  notifyConnectionListeners "disconnected" (CloseEvent code reason) ;;;
  m <- get_mgr ;;
  when (negb (code =? 1000)%Z && (reconnectAttempts m <? maxReconnectAttempts)%nat)
       scheduleReconnect.

Definition onerror (k : nat) : M unit :=
  emit (Console ErrWebSocket) ;;;
  update_mgr (set_isConnecting false) ;;;
  notifyConnectionListeners "error" ErrorEvent ;;;
  emit (PromiseReject k).

(** The bodies of the timer closures. *)
Definition run_task (t : TimerTask) : M unit :=
  match t with
  | HeartbeatPing =>
      send (JObj [("type", JStr "ping")]) ;;; ret tt
  | HeartbeatTimeout =>
      emit (Console WarnHeartbeatTimeout) ;;;
      disconnect ;;;
      scheduleReconnect
  | Reconnect =>
      update_mgr (fun m => set_reconnectAttempts (S (reconnectAttempts m)) m) ;;;
      connect None ;;;
      ret tt
  end.

Definition getState (w : World) : string :=
  match ws (mgr w) with
  | None => "disconnected"
  | Some k =>
      match readyState_of k w with
      | 0%nat => "connecting"
      | 1%nat => "connected"
      | 2%nat => "closing"
      | 3%nat => "disconnected"
      | _ => "unknown"
      end
  end.

(** [this.ws && this.ws.readyState === WebSocket.OPEN] as a value: [null]
    ([None]) when there is no socket, a boolean otherwise. *)
Definition isConnected (w : World) : option bool :=
  match ws (mgr w) with
  | None => None
  | Some k => Some (readyState_of k w =? OPEN)%nat
  end.

End Methods.

(** ** The event loop

    One [Event] is one task of the host's event loop: a call into the
    manager from application code, a transport event of one of the sockets
    (delivered to the callbacks [connect] installed on it, which stay
    installed after the manager drops or replaces the socket), a timer
    firing, or time passing. *)

Inductive Event : Type :=
| Call_connect (path : option string)
| Call_disconnect
| Call_send (data : json)
| Call_addConnectionListener (cb : nat)
| Call_removeConnectionListener (cb : nat)
| Call_addMessageListener (cb : nat)
| Call_removeMessageListener (cb : nat)
| Ws_open (k : nat)
| Ws_message (k : nat) (text : string)
| Ws_closing (k : nat)                       (* peer started the closing handshake *)
| Ws_error (k : nat)
| Ws_close (k : nat) (code : Z) (reason : string)
| Timer_fire (id : positive)
| Tick (ms : Z).

Definition host_readyState (k v : nat) : World -> World :=
  with_sockets (alter (set_readyState v) k).

Definition host_failed (k : nat) : World -> World :=
  with_sockets (alter (fun s =>
    {| url := url s; readyState := CLOSED; sent := sent s;
       close_requested := close_requested s;
       error_fired := true; close_fired := close_fired s |}) k).

Definition host_closed (k : nat) : World -> World :=
  with_sockets (alter (fun s =>
    {| url := url s; readyState := CLOSED; sent := sent s;
       close_requested := close_requested s;
       error_fired := error_fired s; close_fired := true |}) k).

Fixpoint find_timer (id : positive) (l : list Timer) : option Timer :=
  match l with
  | [] => None
  | t :: rest => if Pos.eqb (timer_id t) id then Some t else find_timer id rest
  end.

(** A one-shot timer leaves the table when it fires; an interval is
    re-armed one period later. *)
Definition host_fired (t : Timer) : World -> World :=
  with_timers (fun l =>
    if repeating t then
      (fun x => if Pos.eqb (timer_id x) (timer_id t)
                then {| timer_id := timer_id x; task := task x; delay := delay x;
                        due := due x + delay x; repeating := repeating x |}
                else x) <$> l
    else cancel (timer_id t) l).

Section EventLoop.

Variable h : Host.

Definition step (e : Event) (w : World) : option World :=
  match e with
  | Call_connect p => Some (exec (connect h p) w)
  | Call_disconnect => Some (exec disconnect w)
  | Call_send data => Some (exec (send h data) w)
  | Call_addConnectionListener cb => Some (exec (addConnectionListener cb) w)
  | Call_removeConnectionListener cb => Some (exec (removeConnectionListener cb) w)
  | Call_addMessageListener cb => Some (exec (addMessageListener cb) w)
  | Call_removeMessageListener cb => Some (exec (removeMessageListener cb) w)
  | Ws_open k =>
      match sockets w !! k with
      | Some s =>
          if (readyState s =? CONNECTING)%nat
          then Some (exec (onopen h k) (host_readyState k OPEN w))
          else None
      | None => None
      end
  | Ws_message k text =>
      match sockets w !! k with
      | Some s =>
          if (readyState s =? OPEN)%nat
          then Some (exec (onmessage h text) w)
          else None
      | None => None
      end
  | Ws_closing k =>
      match sockets w !! k with
      | Some s =>
          if (readyState s =? OPEN)%nat
          then Some (host_readyState k CLOSING w)
          else None
      | None => None
      end
  | Ws_error k =>
      match sockets w !! k with
      | Some s =>
          if negb (close_fired s) && negb (error_fired s)
          then Some (exec (onerror h k) (host_failed k w))
          else None
      | None => None
      end
  | Ws_close k code reason =>
      match sockets w !! k with
      | Some s =>
          if negb (close_fired s)
          then Some (exec (onclose h code reason) (host_closed k w))
          else None
      | None => None
      end
  | Timer_fire id =>
      match find_timer id (timers w) with
      | Some t =>
          if (due t <=? clock w)%Z
          then Some (exec (run_task h (task t)) (host_fired t w))
          else None
      | None => None
      end
  | Tick ms =>
      if (0 <=? ms)%Z then Some (with_clock (Z.add ms) w) else None
  end.

Fixpoint run (es : list Event) (w : World) : option World :=
  match es with
  | [] => Some w
  | e :: rest =>
      match step e w with
      | Some w' => run rest w'
      | None => None
      end
  end.

Definition reachable (w : World) : Prop :=
  exists es, run es initial_world = Some w.

End EventLoop.

(** A concrete host for closed examples: a page served over http from
    localhost:3000 with no configured socket URL, a codec that knows three
    frames, a socket constructor that accepts every URL and listeners that
    never throw. *)
Definition sample_parse (text : string) : option json :=
  if String.eqb text "PONG" then Some (JObj [("type", JStr "pong")])
  else if String.eqb text "UPDATE" then
    Some (JObj [("type", JStr "dashboard_update");
                ("analytics", JObj [("totalCalls", JNum 42)])])
  else if String.eqb text "null" then Some JNull
  else None.

Definition sample_stringify (data : json) : option string :=
  match data with
  | JObj [(k, JStr v)] => Some (k +:+ "=" +:+ v)
  | JNull => Some "null"
  | _ => None
  end.

Definition sample_host : Host :=
  {| import_meta_env := None;
     window_ENV := None;
     location_protocol := "http:";
     location_hostname := "localhost";
     location_port := "3000";
     JSON_parse := sample_parse;
     JSON_stringify := sample_stringify;
     WebSocket_accepts := fun _ => true;
     connection_listener_throws := fun _ _ => false;
     message_listener_throws := fun _ _ => false |}.


(** ** Vocabulary of the statements

    Summaries of what the methods do, the invariants of the event loop,
    readers of the trace, and the concrete runs used in closed examples. *)

Definition connection_calls (h : Host) (state : string) (event : DomEvent)
  (l : list nat) : list Effect :=
  flat_map (fun cb =>
    CallConnectionListener cb state event ::
    (if connection_listener_throws h cb state then [Console ErrConnectionListener] else [])) l.

Definition message_calls (h : Host) (data : json) (l : list nat) : list Effect :=
  flat_map (fun cb =>
    CallMessageListener cb data ::
    (if message_listener_throws h cb data then [Console ErrMessageListener] else [])) l.

Definition cancel_opt (o : option positive) (l : list Timer) : list Timer :=
  match o with
  | Some i => cancel i l
  | None => l
  end.

Definition one_shot (id : positive) (t : TimerTask) (ms now : Z) : Timer :=
  {| timer_id := id; task := t; delay := ms; due := now + ms; repeating := false |}.

Definition interval (id : positive) (t : TimerTask) (ms now : Z) : Timer :=
  {| timer_id := id; task := t; delay := ms; due := now + ms; repeating := true |}.

(** The test of the close handler: not a clean close, and retries left. *)
Definition should_reconnect (code : Z) (w : World) : bool :=
  negb (code =? 1000)%Z && (reconnectAttempts (mgr w) <? maxReconnectAttempts)%nat.

Definition bump (m : Manager) : Manager :=
  set_reconnectAttempts (S (reconnectAttempts m)) m.

(** Timer handles are fresh, and every armed heartbeat timer is the one
    the manager holds the handle of. *)
Record timers_ok (w : World) : Prop := {
  timers_fresh : forall t, t ∈ timers w -> (timer_id t < next_timer w)%positive;
  ping_owned : forall t, t ∈ timers w -> task t = HeartbeatPing ->
    heartbeatInterval (mgr w) = Some (timer_id t);
  timeout_owned : forall t, t ∈ timers w -> task t = HeartbeatTimeout ->
    heartbeatTimeout (mgr w) = Some (timer_id t);
  interval_handle_fresh : forall i, heartbeatInterval (mgr w) = Some i ->
    (i < next_timer w)%positive;
  timeout_handle_fresh : forall i, heartbeatTimeout (mgr w) = Some i ->
    (i < next_timer w)%positive;
  interval_handle_ping : forall t, t ∈ timers w ->
    heartbeatInterval (mgr w) = Some (timer_id t) -> task t = HeartbeatPing;
  timeout_handle_timeout : forall t, t ∈ timers w ->
    heartbeatTimeout (mgr w) = Some (timer_id t) -> task t = HeartbeatTimeout
}.

Record listeners_ok (w : World) : Prop := {
  connection_nodup : NoDup (connectionListeners (mgr w));
  message_nodup : NoDup (messageListeners (mgr w))
}.

Record sockets_ok (w : World) : Prop := {
  ws_bound : forall k, ws (mgr w) = Some k -> (k < length (sockets w))%nat;
  readyState_range : Forall (fun s => (readyState s <= CLOSED)%nat) (sockets w)
}.

(** The invariant of the event loop. *)
Record wf (w : World) : Prop := {
  wf_listeners : listeners_ok w;
  wf_sockets : sockets_ok w;
  wf_timers : timers_ok w
}.

(** The effects a step added. *)
Definition effects_since (w w' : World) : list Effect :=
  drop (length (trace w)) (trace w').

(** The state labels handed to connection listeners, in order. *)
Fixpoint notified_states (es : list Effect) : list (nat * string) :=
  match es with
  | [] => []
  | CallConnectionListener cb state _ :: rest => (cb, state) :: notified_states rest
  | _ :: rest => notified_states rest
  end.

(** The payloads handed to message listeners, in order. *)
Fixpoint message_deliveries (es : list Effect) : list (nat * json) :=
  match es with
  | [] => []
  | CallMessageListener cb data :: rest => (cb, data) :: message_deliveries rest
  | _ :: rest => message_deliveries rest
  end.

#[local] Instance TimerTask_eq_dec : EqDecision TimerTask.
Proof. solve_decision. Defined.

Definition pending (t : TimerTask) (l : list Timer) : list Timer :=
  filter (fun x => task x = t) l.


(** Worlds reached from a fresh manager on [sample_host]. *)
Definition after (es : list Event) : World :=
  default initial_world (run sample_host es initial_world).

Definition up_and_open : list Event :=
  [Call_addConnectionListener 7%nat; Call_addMessageListener 8%nat;
   Call_connect (Some "/live"); Ws_open 0%nat].

(** Ten connection attempts in a row that fail: each socket reports an
    error and closes abnormally, the backoff elapses, the reconnect fires. *)
Definition failed_round (i : nat) : list Event :=
  [Ws_error i; Ws_close i 1006 EmptyString; Tick (backoff i); Timer_fire (Pos.of_nat (S i))].

Definition ten_failures : list Event :=
  Call_addConnectionListener 7%nat :: Call_connect None
    :: flat_map failed_round (seq 0 10).

(** A socket is dropped by the liveness timeout, its replacement opens,
    and only then does the close event of the dropped socket arrive. *)
Definition stale_close : list Event :=
  up_and_open ++
  [Tick 30000; Timer_fire 1;      (* the first ping goes out; no pong comes *)
   Tick 5000; Timer_fire 2;       (* 35 s without a pong: disconnect, schedule *)
   Tick 1000; Timer_fire 3;       (* the reconnect fires: socket 1 *)
   Ws_open 1%nat;                 (* connected again, heartbeat armed *)
   Ws_close 0%nat 1006 EmptyString;        (* close event of the dropped socket 0 *)
   Tick 1000; Timer_fire 6].      (* the reconnect it scheduled: a no-op *)

Definition time_only (e : Event) : Prop :=
  match e with
  | Tick _ | Timer_fire _ => True
  | _ => False
  end.

(** The shape of every timer the manager arms. *)
Definition timer_shape (t : Timer) : Prop :=
  match task t with
  | HeartbeatPing => delay t = 30000 /\ repeating t = true
  | HeartbeatTimeout => delay t = 35000 /\ repeating t = false
  | Reconnect => 1000 <= delay t <= 30000 /\ repeating t = false
  end.

(** What a step may put on the trace, given the listeners registered when
    it starts. *)
Definition effect_allowed (m : Manager) (e : Effect) : Prop :=
  match e with
  | CallConnectionListener cb state _ =>
      cb ∈ connectionListeners m
      /\ (state = "connected" \/ state = "disconnected" \/ state = "error")
  | CallMessageListener cb _ => cb ∈ messageListeners m
  | _ => True
  end.

(** The label a transport event makes the manager announce. *)
Definition announced (e : Event) : option string :=
  match e with
  | Ws_open _ => Some "connected"
  | Ws_close _ _ _ => Some "disconnected"
  | Ws_error _ => Some "error"
  | _ => None
  end.

(** ** The application's connection-status display (main.js)

    [updateConnectionStatus(state)] writes the text and class of the
    [#connectionStatus] element, when the page has one. *)
Record StatusElement : Type := {
  textContent : string;
  className : string
}.

Definition updateConnectionStatus (state : string) (el : option StatusElement)
  : option StatusElement :=
  match el with
  | None => None
  | Some _ =>
      Some (if String.eqb state "connected" then
              {| textContent := "Connected"; className := "connection-status" |}
            else if String.eqb state "connecting" then
              {| textContent := "Connecting..."; className := "connection-status" |}
            else if String.eqb state "disconnected" then
              {| textContent := "Disconnected";
                 className := "connection-status disconnected" |}
            else if String.eqb state "error" then
              {| textContent := "Connection Error";
                 className := "connection-status disconnected" |}
            else
              {| textContent := "Unknown";
                 className := "connection-status disconnected" |})
  end.

(** The element after the listener [(state, event) =>
    this.updateConnectionStatus(state)] has seen the notifications of a
    trace addressed to callback [cb]. *)
Fixpoint status_after (cb : nat) (ns : list (nat * string)) (el : option StatusElement)
  : option StatusElement :=
  match ns with
  | [] => el
  | (c, state) :: rest =>
      status_after cb rest (if Nat.eqb c cb then updateConnectionStatus state el else el)
  end.

(** The three labels [notifyConnectionListeners] is ever called with. *)
Definition known_label (state : string) : Prop :=
  state = "connected" \/ state = "disconnected" \/ state = "error".

(** Handles in the timer table are pairwise distinct and below the next
    handle the host will issue. *)
Definition distinct_below (n : positive) (l : list Timer) : Prop :=
  NoDup (timer_id <$> l) /\ forall t, t ∈ l -> (timer_id t < n)%positive.

(** A page served over https whose build-time environment sets one key. *)
Definition configured_host (key value : string) : Host :=
  {| import_meta_env := Some [(key, value)];
     window_ENV := None; location_protocol := "https:";
     location_hostname := "example.org"; location_port := EmptyString;
     JSON_parse := sample_parse; JSON_stringify := sample_stringify;
     WebSocket_accepts := fun _ => true;
     connection_listener_throws := fun _ _ => false;
     message_listener_throws := fun _ _ => false |}.

(** ** Dashboard.formatDuration (dashboard.js)

    The argument is taken as an integer number of seconds below 2^53,
    where the arithmetic of JavaScript numbers is exact. *)

Module Dashboard.

(** [n.toString()] of a non-negative integer. *)
Definition decimal (n : Z) : string :=
  NilEmpty.string_of_uint (N.to_uint (Z.to_N n)).

(** [s.padStart(2, '0')] *)
Definition padStart2 (s : string) : string :=
  match String.length s with
  | 0%nat => "00"
  | 1%nat => "0" +:+ s
  | _ => s
  end.

Definition formatDuration (seconds : Z) : string :=
  if (seconds =? 0)%Z || (seconds <? 0)%Z then "0:00"
  else
    let minutes := seconds / 60 in
    let remainingSeconds := seconds mod 60 in
    decimal minutes +:+ ":" +:+ padStart2 (decimal remainingSeconds).

(** Reading a run of decimal digits back ([-1] when it is not one). *)
Definition read_decimal (s : string) : Z :=
  match NilEmpty.uint_of_string s with
  | Some d => Z.of_N (N.of_uint d)
  | None => -1
  end.

End Dashboard.

(** ** A page that disconnects and connects again

    The close event of the first socket is delivered late: after its
    replacement has opened, or while the replacement is still connecting. *)
Definition replaced_and_open : list Event :=
  [Call_addConnectionListener 7%nat; Call_connect (Some "/live"); Ws_open 0%nat;
   Call_disconnect; Call_connect (Some "/live"); Ws_open 1%nat].

Definition close_after_replacement : list Event :=
  replaced_and_open ++ [Ws_close 0%nat 1000 "Client disconnect"].

Definition close_while_reconnecting : list Event :=
  [Call_connect (Some "/live"); Ws_open 0%nat; Call_disconnect;
   Call_connect (Some "/live"); Ws_close 0%nat 1000 "Client disconnect"].

(** ** The promise returned by [connect]

    A promise is settled by the first call of its [resolve] or [reject];
    later calls are ignored.  The state of the promise of the connect that
    made socket [k] is read off the trace: [None] while it is pending. *)
Inductive Outcome : Type := Fulfilled | Failed.

Fixpoint promise_state (k : nat) (es : list Effect) : option Outcome :=
  match es with
  | [] => None
  | PromiseResolve j :: rest =>
      if (j =? k)%nat then Some Fulfilled else promise_state k rest
  | PromiseReject j :: rest =>
      if (j =? k)%nat then Some Failed else promise_state k rest
  | _ :: rest => promise_state k rest
  end.

(** The promise of a socket that is still connecting (or not constructed
    yet) is pending. *)
Definition promises_ok (w : World) : Prop :=
  forall k, match sockets w !! k with
            | Some s => readyState s = CONNECTING -> promise_state k (trace w) = None
            | None => promise_state k (trace w) = None
            end.

(** The socket whose connect promise an event's handler settles. *)
Definition settled_by (e : Event) : option nat :=
  match e with
  | Ws_open j | Ws_error j => Some j
  | _ => None
  end.

(** * Properties *)

(** ** Sanity checks on the sample host *)

Example buildWsUrl_default :
  Config.buildWsUrl sample_host "/ws" = "ws://localhost:3000/ws/ws".
Proof. reflexivity. Qed.

Example buildWsUrl_configured :
  Config.buildWsUrl
    {| import_meta_env := Some [("VITE_WS_URL", "wss://api.example.org/")];
       window_ENV := None; location_protocol := "https:";
       location_hostname := "example.org"; location_port := EmptyString;
       JSON_parse := sample_parse; JSON_stringify := sample_stringify;
       WebSocket_accepts := fun _ => true;
       connection_listener_throws := fun _ _ => false;
       message_listener_throws := fun _ _ => false |} "live"
  = "wss://api.example.org/live".
Proof. reflexivity. Qed.

Example backoff_table :
  map backoff (seq 0 8) = [1000; 2000; 4000; 8000; 16000; 30000; 30000; 30000].
Proof. reflexivity. Qed.

Example first_connect :
  run sample_host [Call_connect None] initial_world
  = Some {| mgr := set_ws (Some 0%nat) (set_isConnecting true new_manager);
            sockets := [fresh_socket "ws://localhost:3000/ws/ws"];
            timers := []; next_timer := 1; clock := 0;
            trace := [Console (LogConnecting "ws://localhost:3000/ws/ws")] |}.
Proof. reflexivity. Qed.

#[local] Arguments notifyConnectionListeners : simpl never.
#[local] Arguments notifyMessageListeners : simpl never.
#[local] Arguments Config.buildWsUrl : simpl never.
#[local] Arguments run_task : simpl never.
#[local] Arguments connect : simpl never.
#[local] Arguments disconnect : simpl never.
#[local] Arguments send : simpl never.
#[local] Arguments handleMessage : simpl never.
#[local] Arguments onopen : simpl never.
#[local] Arguments onclose : simpl never.
#[local] Arguments onerror : simpl never.
#[local] Arguments scheduleReconnect : simpl never.
#[local] Arguments startHeartbeat : simpl never.
#[local] Arguments stopHeartbeat : simpl never.
#[local] Arguments resetHeartbeatTimeout : simpl never.
#[local] Arguments backoff : simpl never.
#[local] Arguments cancel : simpl never.
#[local] Arguments Nat.leb : simpl never.
#[local] Arguments Nat.ltb : simpl never.
#[local] Arguments Nat.eqb : simpl never.
#[local] Arguments Z.eqb : simpl never.
#[local] Arguments Z.leb : simpl never.
#[local] Arguments Z.add : simpl never.
#[local] Arguments Pos.succ : simpl never.
#[local] Arguments Pos.eqb : simpl never.
#[local] Arguments is_pong : simpl never.
#[local] Arguments get_type : simpl never.
#[local] Arguments alter : simpl never.

(** ** Listener fan-out only writes to the trace *)

Lemma log_nil w : log [] w = w.
Proof. destruct w; unfold log; simpl. by rewrite app_nil_r. Qed.

Lemma log_log es1 es2 w : log es2 (log es1 w) = log (es1 ++ es2) w.
Proof. unfold log; simpl. by rewrite app_assoc. Qed.

Lemma notifyConnectionListeners_eq h state event w :
  notifyConnectionListeners h state event w =
  (tt, log (connection_calls h state event (connectionListeners (mgr w))) w).
Proof.
  unfold notifyConnectionListeners, bind, get_mgr.
  generalize (connectionListeners (mgr w)) as l. intros l. revert w.
  induction l as [|cb l IH]; intros w; simpl.
  - by rewrite log_nil.
  - unfold bind, emit, when, ret.
    destruct (connection_listener_throws h cb state); simpl;
      rewrite IH, ?log_log; simpl; reflexivity.
Qed.

Lemma notifyMessageListeners_eq h data w :
  notifyMessageListeners h data w =
  (tt, log (message_calls h data (messageListeners (mgr w))) w).
Proof.
  unfold notifyMessageListeners, bind, get_mgr.
  generalize (messageListeners (mgr w)) as l. intros l. revert w.
  induction l as [|cb l IH]; intros w; simpl.
  - by rewrite log_nil.
  - unfold bind, emit, when, ret.
    destruct (message_listener_throws h cb data); simpl;
      rewrite IH, ?log_log; simpl; reflexivity.
Qed.



(** ** What each method does to the world

    One equation per method: the world it leaves (and the value it
    returns) written out field by field.  The later proofs work from these
    equations rather than from the monadic bodies. *)

Ltac destruct_world w :=
  let m := fresh "m" in
  destruct w as [m ? ? ? ? ?]; destruct m as [? ? ? ? ? ? ? ?].

Ltac run_methods :=
  unfold exec, result, onopen, onclose, onerror, onmessage, handleMessage, run_task,
    connect, disconnect, scheduleReconnect, startHeartbeat, resetHeartbeatTimeout,
    stopHeartbeat, send, addConnectionListener, removeConnectionListener,
    addMessageListener, removeMessageListener,
    setTimeout, setInterval, arm, clearTimer, new_WebSocket, ws_send, ws_close,
    bind, ret, when, emit, update_mgr, get_mgr, gets, one_shot, interval, cancel_opt;
  cbn.

Ltac finish_eq :=
  cbn; unfold log, with_mgr, with_timers, with_sockets; cbn;
  rewrite <- ?app_assoc; cbn; try reflexivity.

Lemma stopHeartbeat_eq w :
  stopHeartbeat w =
  (tt, {| mgr := set_heartbeatTimeout None (set_heartbeatInterval None (mgr w));
          sockets := sockets w;
          timers := cancel_opt (heartbeatTimeout (mgr w))
                      (cancel_opt (heartbeatInterval (mgr w)) (timers w));
          next_timer := next_timer w; clock := clock w; trace := trace w |}).
Proof.
  destruct_world w. run_methods.
  destruct heartbeatInterval0, heartbeatTimeout0; finish_eq.
Qed.

Lemma resetHeartbeatTimeout_eq w :
  resetHeartbeatTimeout w =
  (tt, {| mgr := set_heartbeatTimeout (Some (next_timer w)) (mgr w);
          sockets := sockets w;
          timers := cancel_opt (heartbeatTimeout (mgr w)) (timers w)
                      ++ [one_shot (next_timer w) HeartbeatTimeout 35000 (clock w)];
          next_timer := Pos.succ (next_timer w); clock := clock w; trace := trace w |}).
Proof.
  destruct_world w. run_methods.
  destruct heartbeatTimeout0; finish_eq.
Qed.

Lemma startHeartbeat_eq w :
  startHeartbeat w =
  (tt, {| mgr := set_heartbeatTimeout (Some (Pos.succ (next_timer w)))
                   (set_heartbeatInterval (Some (next_timer w)) (mgr w));
          sockets := sockets w;
          timers := cancel_opt (heartbeatTimeout (mgr w))
                      (cancel_opt (heartbeatInterval (mgr w)) (timers w))
                      ++ [interval (next_timer w) HeartbeatPing 30000 (clock w);
                          one_shot (Pos.succ (next_timer w)) HeartbeatTimeout 35000 (clock w)];
          next_timer := Pos.succ (Pos.succ (next_timer w));
          clock := clock w; trace := trace w |}).
Proof.
  destruct_world w. run_methods.
  destruct heartbeatInterval0, heartbeatTimeout0; finish_eq.
Qed.

Lemma scheduleReconnect_eq w :
  scheduleReconnect w =
  (tt, if (maxReconnectAttempts <=? reconnectAttempts (mgr w))%nat
       then log [Console ErrMaxReconnect] w
       else {| mgr := set_reconnectTimeout (Some (next_timer w)) (mgr w);
               sockets := sockets w;
               timers := timers w
                 ++ [one_shot (next_timer w) Reconnect
                       (backoff (reconnectAttempts (mgr w))) (clock w)];
               next_timer := Pos.succ (next_timer w); clock := clock w;
               trace := trace w
                 ++ [Console (LogReconnecting (backoff (reconnectAttempts (mgr w)))
                                (reconnectAttempts (mgr w) + 1)%nat)] |}).
Proof.
  destruct_world w. run_methods.
  destruct (maxReconnectAttempts <=? reconnectAttempts0)%nat; finish_eq.
Qed.

Lemma disconnect_eq w :
  disconnect w =
  (tt, {| mgr := set_ws None (set_heartbeatTimeout None (set_heartbeatInterval None
                   (set_reconnectTimeout None (mgr w))));
          sockets := match ws (mgr w) with
                     | Some k => alter (start_close 1000 "Client disconnect") k (sockets w)
                     | None => sockets w
                     end;
          timers := cancel_opt (heartbeatTimeout (mgr w))
                      (cancel_opt (heartbeatInterval (mgr w))
                         (cancel_opt (reconnectTimeout (mgr w)) (timers w)));
          next_timer := next_timer w; clock := clock w; trace := trace w |}).
Proof.
  destruct_world w. run_methods.
  destruct reconnectTimeout0, heartbeatInterval0, heartbeatTimeout0, ws0; finish_eq.
Qed.

Lemma send_eq h data w :
  send h data w =
  if ws_is_open w then
    match ws (mgr w), JSON_stringify h data with
    | Some k, Some text => (true, with_sockets (alter (push_frame text) k) w)
    | _, _ => (false, log [Console ErrSendFailed] w)
    end
  else (false, log [Console WarnNotConnected] w).
Proof.
  run_methods. destruct (ws_is_open w); [|reflexivity].
  destruct (ws (mgr w)), (JSON_stringify h data); reflexivity.
Qed.

Lemma handleMessage_eq h text w :
  handleMessage h text w =
  (tt, match JSON_parse h text with
       | None => log [Console ErrParseFailed] w
       | Some data =>
           let w1 := log (message_calls h data (messageListeners (mgr w))) w in
           match get_type data with
           | None => log [Console ErrParseFailed] w1
           | Some t => if is_pong t then exec resetHeartbeatTimeout w1 else w1
           end
       end).
Proof.
  unfold handleMessage. destruct (JSON_parse h text) as [data|]; [|reflexivity].
  unfold bind. rewrite notifyMessageListeners_eq. cbn.
  destruct (get_type data) as [t|]; [|reflexivity].
  unfold when, exec. destruct (is_pong t); [|reflexivity].
  by destruct (resetHeartbeatTimeout _) as [[] ?].
Qed.

Lemma connect_eq h p w :
  connect h p w =
  if isConnecting (mgr w) || ws_is_open w then (Resolved, w)
  else
    let u := Config.buildWsUrl h (default "/ws" p) in
    if WebSocket_accepts h u then
      (Pending (length (sockets w)),
       {| mgr := set_ws (Some (length (sockets w))) (set_isConnecting true (mgr w));
          sockets := sockets w ++ [fresh_socket u];
          timers := timers w; next_timer := next_timer w; clock := clock w;
          trace := trace w ++ [Console (LogConnecting u)] |})
    else
      (Rejected,
       {| mgr := set_isConnecting false (mgr w);
          sockets := sockets w; timers := timers w; next_timer := next_timer w;
          clock := clock w; trace := trace w ++ [Console (LogConnecting u)] |}).
Proof.
  unfold connect, bind, gets. cbn.
  destruct (isConnecting (mgr w) || ws_is_open w); [reflexivity|].
  destruct_world w. run_methods.
  destruct (WebSocket_accepts h _); finish_eq.
Qed.

Lemma onopen_eq h k w :
  exec (onopen h k) w =
  {| mgr := set_heartbeatTimeout (Some (Pos.succ (next_timer w)))
              (set_heartbeatInterval (Some (next_timer w))
                 (set_reconnectAttempts 0 (set_isConnecting false (mgr w))));
     sockets := sockets w;
     timers := cancel_opt (heartbeatTimeout (mgr w))
                 (cancel_opt (heartbeatInterval (mgr w)) (timers w))
                 ++ [interval (next_timer w) HeartbeatPing 30000 (clock w);
                     one_shot (Pos.succ (next_timer w)) HeartbeatTimeout 35000 (clock w)];
     next_timer := Pos.succ (Pos.succ (next_timer w));
     clock := clock w;
     trace := trace w ++ Console LogConnected
                :: connection_calls h "connected" OpenEvent (connectionListeners (mgr w))
                ++ [PromiseResolve k] |}.
Proof.
  destruct_world w. run_methods.
  destruct heartbeatInterval0, heartbeatTimeout0; cbn;
    rewrite notifyConnectionListeners_eq; finish_eq.
Qed.

Lemma retries_left_not_exhausted n :
  (n <? maxReconnectAttempts)%nat = true -> (maxReconnectAttempts <=? n)%nat = false.
Proof. intros H. apply Nat.ltb_lt in H. apply Nat.leb_gt. exact H. Qed.

Lemma onclose_eq h code reason w :
  exec (onclose h code reason) w =
  let go := should_reconnect code w in
  let n := reconnectAttempts (mgr w) in
  {| mgr := (if go then set_reconnectTimeout (Some (next_timer w)) else fun m => m)
              (set_heartbeatTimeout None (set_heartbeatInterval None
                 (set_isConnecting false (mgr w))));
     sockets := sockets w;
     timers := cancel_opt (heartbeatTimeout (mgr w))
                 (cancel_opt (heartbeatInterval (mgr w)) (timers w))
                 ++ (if go then [one_shot (next_timer w) Reconnect (backoff n) (clock w)]
                     else []);
     next_timer := if go then Pos.succ (next_timer w) else next_timer w;
     clock := clock w;
     trace := trace w ++ Console (LogDisconnected code reason)
                :: connection_calls h "disconnected" (CloseEvent code reason)
                     (connectionListeners (mgr w))
                ++ (if go then [Console (LogReconnecting (backoff n) (n + 1)%nat)]
                    else []) |}.
Proof.
  unfold should_reconnect. destruct_world w. run_methods.
  destruct heartbeatInterval0, heartbeatTimeout0; cbn;
    rewrite notifyConnectionListeners_eq; cbn;
    destruct (negb (code =? 1000)%Z); cbn;
    try (destruct (reconnectAttempts0 <? maxReconnectAttempts)%nat eqn:E; cbn;
         [apply retries_left_not_exhausted in E|]);
    finish_eq; rewrite ?E; finish_eq; rewrite ?app_nil_r; reflexivity.
Qed.

Lemma onerror_eq h k w :
  exec (onerror h k) w =
  {| mgr := set_isConnecting false (mgr w);
     sockets := sockets w; timers := timers w; next_timer := next_timer w;
     clock := clock w;
     trace := trace w ++ Console ErrWebSocket
                :: connection_calls h "error" ErrorEvent (connectionListeners (mgr w))
                ++ [PromiseReject k] |}.
Proof.
  destruct_world w. run_methods. rewrite notifyConnectionListeners_eq. finish_eq.
Qed.

Lemma run_task_eq h t w :
  exec (run_task h t) w =
  match t with
  | HeartbeatPing => exec (send h (JObj [("type", JStr "ping")])) w
  | HeartbeatTimeout =>
      exec scheduleReconnect (exec disconnect (log [Console WarnHeartbeatTimeout] w))
  | Reconnect => exec (connect h None) (with_mgr bump w)
  end.
Proof.
  destruct t; unfold run_task, exec, bind, emit, update_mgr, ret.
  - by destruct (send h _ w).
  - by destruct (disconnect _) as [[] ?].
  - by destruct (connect h None _).
Qed.

Lemma exec_send h data w :
  exec (send h data) w =
  if ws_is_open w then
    match ws (mgr w), JSON_stringify h data with
    | Some k, Some text => with_sockets (alter (push_frame text) k) w
    | _, _ => log [Console ErrSendFailed] w
    end
  else log [Console WarnNotConnected] w.
Proof.
  unfold exec. rewrite send_eq.
  destruct (ws_is_open w); [|reflexivity].
  destruct (ws (mgr w)), (JSON_stringify h data); reflexivity.
Qed.

Lemma exec_connect h p w :
  exec (connect h p) w =
  if isConnecting (mgr w) || ws_is_open w then w
  else
    let u := Config.buildWsUrl h (default "/ws" p) in
    if WebSocket_accepts h u then
      {| mgr := set_ws (Some (length (sockets w))) (set_isConnecting true (mgr w));
         sockets := sockets w ++ [fresh_socket u];
         timers := timers w; next_timer := next_timer w; clock := clock w;
         trace := trace w ++ [Console (LogConnecting u)] |}
    else
      {| mgr := set_isConnecting false (mgr w);
         sockets := sockets w; timers := timers w; next_timer := next_timer w;
         clock := clock w; trace := trace w ++ [Console (LogConnecting u)] |}.
Proof.
  unfold exec. rewrite connect_eq.
  destruct (isConnecting (mgr w) || ws_is_open w); [reflexivity|].
  cbn. destruct (WebSocket_accepts h _); reflexivity.
Qed.

Lemma exec_handleMessage h text w :
  exec (handleMessage h text) w =
  match JSON_parse h text with
  | None => log [Console ErrParseFailed] w
  | Some data =>
      let w1 := log (message_calls h data (messageListeners (mgr w))) w in
      match get_type data with
      | None => log [Console ErrParseFailed] w1
      | Some t => if is_pong t then exec resetHeartbeatTimeout w1 else w1
      end
  end.
Proof. unfold exec at 1. by rewrite handleMessage_eq. Qed.

(** ** Invariants of the event loop *)

Lemma elem_of_cancel (t : Timer) i l : t ∈ cancel i l <-> timer_id t <> i /\ t ∈ l.
Proof. unfold cancel. exact (list_elem_of_filter (fun x => timer_id x <> i) l t). Qed.

Lemma elem_of_cancel_opt (t : Timer) o l :
  t ∈ cancel_opt o l <-> o <> Some (timer_id t) /\ t ∈ l.
Proof.
  destruct o as [i|]; simpl.
  - rewrite elem_of_cancel. split; intros [H1 H2]; split; congruence.
  - split; [intros H; split; [discriminate|exact H] | tauto].
Qed.

Ltac timers_tac :=
  unfold one_shot, interval in *;
  repeat match goal with
  | H : _ ∈ _ ++ _ |- _ => apply elem_of_app in H; destruct H as [H|H]
  | H : _ ∈ cancel_opt _ _ |- _ => apply elem_of_cancel_opt in H; destruct H as [? H]
  | H : _ ∈ [_] |- _ => apply list_elem_of_singleton in H; subst
  | H : _ ∈ [_; _] |- _ => apply elem_of_cons in H; destruct H as [H|H]; [subst|]
  | H : _ ∈ [] |- _ => apply elem_of_nil in H; destruct H
  end.

Ltac timers_solve Hok :=
  destruct Hok as [Hf Hp Ht Hfi Hft Hoi Hot];
  split; cbn; intros t Hin; try intro; timers_tac; cbn in *;
  try discriminate; try reflexivity; try assumption;
  try (match goal with E : Some _ = Some _ |- _ => injection E as E end);
  try (match goal with E : heartbeatInterval _ = Some _ |- _ =>
         pose proof (Hfi _ E) end);
  try (match goal with E : heartbeatTimeout _ = Some _ |- _ =>
         pose proof (Hft _ E) end);
  try (match type of Hin with _ ∈ _ =>
         pose proof (Hf _ Hin);
         try (match goal with E : task _ = _ |- _ =>
                first [pose proof (Hp _ Hin E) | pose proof (Ht _ Hin E)] end);
         try (match goal with E : heartbeatInterval _ = Some _ |- _ =>
                pose proof (Hoi _ Hin E) end);
         try (match goal with E : heartbeatTimeout _ = Some _ |- _ =>
                pose proof (Hot _ Hin E) end)
       end);
  subst; try congruence; try lia.

Ltac timers_same Hok :=
  destruct Hok as [Hf Hp Ht Hfi Hft Hoi Hot]; split; assumption.

Lemma timers_ok_log es w : timers_ok w -> timers_ok (log es w).
Proof. intros Hok. timers_same Hok. Qed.

Lemma timers_ok_stopHeartbeat w : timers_ok w -> timers_ok (exec stopHeartbeat w).
Proof. intros Hok. unfold exec. rewrite stopHeartbeat_eq. timers_solve Hok. Qed.

Lemma timers_ok_resetHeartbeatTimeout w :
  timers_ok w -> timers_ok (exec resetHeartbeatTimeout w).
Proof. intros Hok. unfold exec. rewrite resetHeartbeatTimeout_eq. timers_solve Hok. Qed.

Lemma timers_ok_scheduleReconnect w :
  timers_ok w -> timers_ok (exec scheduleReconnect w).
Proof.
  intros Hok. unfold exec. rewrite scheduleReconnect_eq. cbn.
  destruct (_ <=? _)%nat; [by apply timers_ok_log|]. timers_solve Hok.
Qed.

Lemma timers_ok_disconnect w : timers_ok w -> timers_ok (exec disconnect w).
Proof. intros Hok. unfold exec. rewrite disconnect_eq. timers_solve Hok. Qed.

Lemma timers_ok_with_sockets f w : timers_ok w -> timers_ok (with_sockets f w).
Proof. intros Hok. timers_same Hok. Qed.

Lemma timers_ok_send h data w : timers_ok w -> timers_ok (exec (send h data) w).
Proof.
  intros Hok. rewrite exec_send.
  destruct (ws_is_open w); [|by apply timers_ok_log].
  destruct (ws (mgr w)), (JSON_stringify h data);
    first [by apply timers_ok_with_sockets | by apply timers_ok_log].
Qed.

Lemma timers_ok_connect h p w : timers_ok w -> timers_ok (exec (connect h p) w).
Proof.
  intros Hok. rewrite exec_connect.
  destruct (_ || _); [assumption|]. cbn.
  destruct (WebSocket_accepts h _); timers_solve Hok.
Qed.

Lemma timers_ok_handleMessage h text w :
  timers_ok w -> timers_ok (exec (handleMessage h text) w).
Proof.
  intros Hok. rewrite exec_handleMessage.
  destruct (JSON_parse h text) as [data|]; [|by apply timers_ok_log]. cbn.
  destruct (get_type data) as [t|]; [|by do 2 apply timers_ok_log].
  destruct (is_pong t); [apply timers_ok_resetHeartbeatTimeout|]; by apply timers_ok_log.
Qed.

Lemma timers_ok_onopen h k w : timers_ok w -> timers_ok (exec (onopen h k) w).
Proof. intros Hok. rewrite onopen_eq. timers_solve Hok. Qed.

Lemma timers_ok_onclose h code reason w :
  timers_ok w -> timers_ok (exec (onclose h code reason) w).
Proof.
  intros Hok. rewrite onclose_eq. cbn.
  destruct (should_reconnect code w); timers_solve Hok.
Qed.

Lemma timers_ok_onerror h k w : timers_ok w -> timers_ok (exec (onerror h k) w).
Proof. intros Hok. rewrite onerror_eq. timers_solve Hok. Qed.

Lemma timers_ok_run_task h t w : timers_ok w -> timers_ok (exec (run_task h t) w).
Proof.
  intros Hok. rewrite run_task_eq. destruct t.
  - by apply timers_ok_send.
  - by apply timers_ok_scheduleReconnect, timers_ok_disconnect, timers_ok_log.
  - apply timers_ok_connect. timers_same Hok.
Qed.

Lemma timers_ok_host_fired t0 w : timers_ok w -> timers_ok (host_fired t0 w).
Proof.
  intros [Hf Hp Ht Hfi Hft Hoi Hot]. unfold host_fired.
  destruct (repeating t0).
  - split; cbn; try assumption; intros t Hin; try intro;
      apply list_elem_of_fmap in Hin; destruct Hin as [x [-> Hx]];
      destruct (Pos.eqb _ _); cbn in *; auto.
  - split; cbn; try assumption; intros t Hin; try intro;
      apply elem_of_cancel in Hin; destruct Hin as [_ Hin]; auto.
Qed.

(** Case analysis on an enabled step. *)
Ltac step_inv H :=
  unfold step in H;
  repeat match type of H with
         | context [match ?x with _ => _ end] => destruct x eqn:?
         end;
  try discriminate; inversion H; subst; clear H.

Ltac use_eqs :=
  rewrite ?run_task_eq;
  rewrite ?onopen_eq, ?onclose_eq, ?onerror_eq, ?exec_connect, ?exec_send;
  unfold onmessage; rewrite ?exec_handleMessage;
  unfold exec, addConnectionListener, removeConnectionListener,
    addMessageListener, removeMessageListener, update_mgr;
  rewrite ?disconnect_eq, ?scheduleReconnect_eq, ?resetHeartbeatTimeout_eq,
    ?stopHeartbeat_eq, ?startHeartbeat_eq; cbn.

Ltac split_ifs :=
  repeat match goal with
         | |- context [if ?b then _ else _] => destruct b eqn:?; cbn
         | |- context [match ?x with _ => _ end] => destruct x eqn:?; cbn
         end.

Ltac crunch := use_eqs; split_ifs; use_eqs; split_ifs.

Lemma set_add_nodup cb l : NoDup l -> NoDup (set_add cb l).
Proof.
  intros H. unfold set_add. destruct (decide (cb ∈ l)) as [|Hn]; [exact H|].
  apply NoDup_app. split; [exact H|]. split.
  - intros x Hx Hx'. apply list_elem_of_singleton in Hx'. subst. contradiction.
  - apply NoDup_singleton.
Qed.

Lemma set_delete_nodup cb l : NoDup l -> NoDup (set_delete cb l).
Proof. intros H. unfold set_delete. by apply NoDup_filter. Qed.

Lemma step_listeners_ok h e w w' :
  listeners_ok w -> step h e w = Some w' -> listeners_ok w'.
Proof.
  intros [Hc Hm] Hs. destruct e; step_inv Hs; crunch.
  all: split; cbn; auto using set_add_nodup, set_delete_nodup.
Qed.

Lemma start_close_range code reason s :
  (readyState s <= CLOSED)%nat -> (readyState (start_close code reason s) <= CLOSED)%nat.
Proof.
  intros H. unfold start_close. destruct (_ || _); cbn; [exact H|].
  unfold CLOSING, CLOSED. lia.
Qed.

Lemma step_sockets_ok h e w w' :
  sockets_ok w -> step h e w = Some w' -> sockets_ok w'.
Proof.
  intros [Hb Hr] Hs. destruct e; step_inv Hs; crunch.
  all: split; cbn.
  all: try (intros k' Hk'; rewrite ?length_alter, ?length_app; cbn;
            first [ discriminate
                  | injection Hk' as <-; lia
                  | apply Hb; congruence ]).
  all: try assumption.
  all: try (apply Forall_app; split; [assumption|by repeat constructor]).
  all: try (apply Forall_alter; [assumption|]; intros x _ Hx; cbn;
            first [ assumption
                  | by apply start_close_range
                  | unfold CLOSED, CLOSING, OPEN; lia ]).
Qed.

Lemma step_timers_ok h e w w' :
  timers_ok w -> step h e w = Some w' -> timers_ok w'.
Proof.
  intros Hok Hs. destruct e; step_inv Hs;
    eauto using timers_ok_connect, timers_ok_disconnect, timers_ok_send,
      timers_ok_onopen, timers_ok_onclose, timers_ok_onerror,
      timers_ok_handleMessage, timers_ok_run_task, timers_ok_host_fired,
      timers_ok_with_sockets.
  all: timers_same Hok.
Qed.

Lemma wf_initial : wf initial_world.
Proof.
  split; split; cbn; try (intros; discriminate); try constructor;
    intros t Ht; by apply elem_of_nil in Ht.
Qed.

Lemma step_wf h e w w' : wf w -> step h e w = Some w' -> wf w'.
Proof.
  intros [Hl Hs Ht] Hstep. split;
    eauto using step_listeners_ok, step_sockets_ok, step_timers_ok.
Qed.

Lemma run_wf h es : forall w w', wf w -> run h es w = Some w' -> wf w'.
Proof.
  induction es as [|e es IH]; intros w w' Hwf Hrun; cbn in Hrun.
  - by injection Hrun as <-.
  - destruct (step h e w) as [w1|] eqn:Hs; [|discriminate].
    eapply IH; [|exact Hrun]. eapply step_wf; eassumption.
Qed.

Lemma reachable_wf h w : reachable h w -> wf w.
Proof. intros [es Hrun]. eapply run_wf; [apply wf_initial | exact Hrun]. Qed.

Lemma reachable_step h e w w' :
  reachable h w -> step h e w = Some w' -> reachable h w'.
Proof.
  intros [es Hrun] Hs. exists (es ++ [e]).
  revert Hrun. generalize initial_world as w0. induction es as [|e0 es IH]; intros w0 Hrun; cbn in *.
  - injection Hrun as ->. by rewrite Hs.
  - destruct (step h e0 w0); [|discriminate]. by apply IH.
Qed.

(** ** Reading the trace *)

#[local] Arguments pending : simpl never.



Lemma notified_states_calls h state event l :
  notified_states (connection_calls h state event l) = map (fun cb => (cb, state)) l.
Proof.
  unfold connection_calls.
  induction l as [|cb l IH]; [reflexivity|]. cbn.
  destruct (connection_listener_throws h cb state); cbn; by rewrite IH.
Qed.

Lemma message_deliveries_app es1 es2 :
  message_deliveries (es1 ++ es2) = message_deliveries es1 ++ message_deliveries es2.
Proof.
  induction es1 as [|e es1 IH]; [reflexivity|].
  destruct e; cbn; rewrite ?IH; reflexivity.
Qed.

Lemma message_deliveries_calls h data l :
  message_deliveries (message_calls h data l) = map (fun cb => (cb, data)) l.
Proof.
  unfold message_calls.
  induction l as [|cb l IH]; [reflexivity|]. cbn.
  destruct (message_listener_throws h cb data); cbn; by rewrite IH.
Qed.

(** ** [getState] and the transport's readiness *)

Lemma getState_connected w : getState w = "connected" <-> ws_is_open w = true.
Proof.
  unfold getState, ws_is_open.
  destruct (ws (mgr w)) as [k|]; [|split; discriminate].
  destruct (readyState_of k w) as [|[|[|[|n]]]]; split; intros H;
    first [reflexivity | discriminate H | vm_compute in H; discriminate H].
Qed.

(** ** Backoff arithmetic *)

Lemma backoff_zero : backoff 0 = 1000.
Proof. reflexivity. Qed.

Lemma backoff_doubles n : backoff (S n) = Z.min (2 * backoff n) 30000.
Proof.
  unfold backoff. rewrite Nat2Z.inj_succ, Z.pow_succ_r by lia.
  assert (0 < 2 ^ Z.of_nat n) by (apply Z.pow_pos_nonneg; lia). lia.
Qed.

Lemma backoff_pos n : 0 < backoff n.
Proof.
  unfold backoff.
  assert (0 < 2 ^ Z.of_nat n) by (apply Z.pow_pos_nonneg; lia). lia.
Qed.

Lemma backoff_capped n : (5 <= n)%nat -> backoff n = 30000.
Proof.
  intros H. unfold backoff.
  assert (2 ^ 5 <= 2 ^ Z.of_nat n) by (apply Z.pow_le_mono_r; lia).
  change (2 ^ 5) with 32 in *. lia.
Qed.

(** ** Timers in the table *)

Lemma find_timer_fresh id r l :
  (forall t, t ∈ l -> timer_id t <> id) -> timer_id r = id ->
  find_timer id (l ++ [r]) = Some r.
Proof.
  intros Hl Hr. induction l as [|t l IH]; cbn.
  - rewrite <- Hr, Pos.eqb_refl. reflexivity.
  - destruct (Pos.eqb (timer_id t) id) eqn:E.
    + apply Pos.eqb_eq in E. exfalso. eapply Hl; [|exact E]. apply list_elem_of_here.
    + apply IH. intros x Hx. apply Hl. by apply list_elem_of_further.
Qed.


Lemma pending_app t l1 l2 : pending t (l1 ++ l2) = pending t l1 ++ pending t l2.
Proof. unfold pending. apply filter_app. Qed.

(** Cancelling a handle that no [t]-timer carries leaves the [t]-timers alone. *)
Lemma pending_cancel_opt t o l :
  (forall x, x ∈ l -> o = Some (timer_id x) -> task x <> t) ->
  pending t (cancel_opt o l) = pending t l.
Proof.
  intros H. destruct o as [i|]; [|reflexivity]. cbn.
  induction l as [|x l IH]; [reflexivity|].
  unfold pending, cancel in *. rewrite !filter_cons.
  destruct (decide (timer_id x <> i)) as [Hne|He].
  - rewrite filter_cons. destruct (decide (task x = t)).
    + f_equal. apply IH. intros y Hy. apply H. by apply list_elem_of_further.
    + apply IH. intros y Hy. apply H. by apply list_elem_of_further.
  - destruct (decide (task x = t)) as [Ht|Ht].
    + exfalso. apply (H x); [apply list_elem_of_here| |exact Ht].
      f_equal. destruct (decide (timer_id x = i)); [congruence|]. contradiction.
    + apply IH. intros y Hy. apply H. by apply list_elem_of_further.
Qed.

Lemma pending_stopped t w :
  timers_ok w -> t = Reconnect ->
  pending t (cancel_opt (heartbeatTimeout (mgr w))
               (cancel_opt (heartbeatInterval (mgr w)) (timers w)))
  = pending t (timers w).
Proof.
  intros Hok ->. rewrite !pending_cancel_opt; [reflexivity| |].
  - intros x Hx E. by rewrite (interval_handle_ping _ Hok x Hx E).
  - intros x Hx E. apply elem_of_cancel_opt in Hx. destruct Hx as [_ Hx].
    by rewrite (timeout_handle_timeout _ Hok x Hx E).
Qed.

Lemma stopped_fresh w i :
  timers_ok w ->
  forall t, t ∈ cancel_opt (heartbeatTimeout (mgr w))
                 (cancel_opt (heartbeatInterval (mgr w)) (timers w)) ->
            (next_timer w <= i)%positive -> timer_id t <> i.
Proof.
  intros Hok t Ht Hi. timers_tac.
  pose proof (timers_fresh _ Hok t Ht). lia.
Qed.

(** * The claims *)

(** C1. A close event whose code is not 1000, received while the
    consecutive-failure counter [n] is below 10, arms exactly one timer: a
    reconnect due [min(1000 * 2^n, 30000)] ms later (1000 ms at [n = 0],
    doubling up to the 30000 ms cap).  The timer cannot fire earlier, and
    when it fires the counter is [n + 1] before [connect] runs. *)
Theorem unexpected_close_backoff h w k code reason w' :
  reachable h w ->
  step h (Ws_close k code reason) w = Some w' ->
  code <> 1000 ->
  (reconnectAttempts (mgr w) < maxReconnectAttempts)%nat ->
  let n := reconnectAttempts (mgr w) in
  let r := one_shot (next_timer w) Reconnect (backoff n) (clock w) in
  timers w' = cancel_opt (heartbeatTimeout (mgr w))
                (cancel_opt (heartbeatInterval (mgr w)) (timers w)) ++ [r]
  /\ pending Reconnect (timers w') = pending Reconnect (timers w) ++ [r]
  /\ reconnectTimeout (mgr w') = Some (timer_id r)
  /\ delay r = Z.min (1000 * 2 ^ Z.of_nat n) 30000
  /\ backoff 0 = 1000
  /\ backoff (S n) = Z.min (2 * backoff n) 30000
  /\ ((5 <= n)%nat -> backoff n = 30000)
  /\ reconnectAttempts (mgr w') = n
  /\ (forall ms, 0 <= ms < backoff n ->
        run h [Tick ms; Timer_fire (timer_id r)] w' = None)
  /\ (forall ms, backoff n <= ms ->
        exists w2,
          run h [Tick ms; Timer_fire (timer_id r)] w' = Some (exec (connect h None) w2)
          /\ reconnectAttempts (mgr w2) = S n
          /\ reconnectAttempts (mgr (exec (connect h None) w2)) = S n).
Proof.
  intros Hreach Hs Hcode Hn n r.
  pose proof (wf_timers _ (reachable_wf _ _ Hreach)) as Hok.
  step_inv Hs. rewrite onclose_eq.
  assert (Hgo : should_reconnect code (host_closed k w) = true).
  { unfold should_reconnect. cbn. apply andb_true_intro. split.
    - apply negb_true_iff. by apply Z.eqb_neq.
    - by apply Nat.ltb_lt. }
  rewrite Hgo. cbn. fold n. fold r.
  assert (Hfind :
    find_timer (next_timer w)
      (cancel_opt (heartbeatTimeout (mgr w))
         (cancel_opt (heartbeatInterval (mgr w)) (timers w)) ++ [r]) = Some r).
  { apply find_timer_fresh; [|reflexivity].
    intros t Ht. eapply stopped_fresh; eauto. lia. }
  repeat apply conj; try reflexivity.
  - rewrite pending_app, pending_stopped by (trivial). reflexivity.
  - apply backoff_doubles.
  - apply backoff_capped.
  - intros ms Hms. unfold step. cbn.
    assert ((0 <=? ms)%Z = true) as -> by (apply Z.leb_le; lia). cbn.
    rewrite Hfind. cbn.
    assert ((clock w + backoff n <=? ms + clock w)%Z = false) as ->
      by (apply Z.leb_gt; lia).
    reflexivity.
  - intros ms Hms. pose proof (backoff_pos n). unfold step. cbn.
    assert ((0 <=? ms)%Z = true) as -> by (apply Z.leb_le; lia). cbn.
    rewrite Hfind. cbn.
    assert ((clock w + backoff n <=? ms + clock w)%Z = true) as ->
      by (apply Z.leb_le; lia).
    rewrite run_task_eq. cbn. eexists. split; [reflexivity|]. split; [reflexivity|].
    rewrite exec_connect. split_ifs; reflexivity.
Qed.

Lemma unexpected_close_backoff_witness :
  let w := after up_and_open in
  let w' := after (up_and_open ++ [Ws_close 0%nat 1006 EmptyString]) in
  reachable sample_host w
  /\ step sample_host (Ws_close 0%nat 1006 EmptyString) w = Some w'
  /\ 1006 <> 1000
  /\ (reconnectAttempts (mgr w) < maxReconnectAttempts)%nat
  /\ pending Reconnect (timers w') = [one_shot 3 Reconnect 1000 0].
Proof.
  intros w w'.
  assert (H1 : reachable sample_host w) by (exists up_and_open; vm_compute; reflexivity).
  assert (H2 : step sample_host (Ws_close 0%nat 1006 EmptyString) w = Some w')
    by (vm_compute; reflexivity).
  assert (H3 : 1006 <> 1000) by lia.
  assert (H4 : (reconnectAttempts (mgr w) < maxReconnectAttempts)%nat)
    by (vm_compute; lia).
  repeat apply conj; try assumption.
  exact (proj1 (proj2 (unexpected_close_backoff sample_host w 0%nat 1006 EmptyString w' H1 H2 H3 H4))).
Defined.

(** C2, as stated, fails on the code.  After ten failed attempts the counter
    is 10; when the eleventh socket fails too, the registered observer is
    told "error" and "disconnected" as for any failed attempt and nothing
    else, and an explicit [connect()] afterwards opens a twelfth socket but
    leaves the counter at 10. *)
Lemma exhaustion_not_surfaced :
  let w := after ten_failures in
  let w1 := after (ten_failures ++ [Ws_error 10%nat; Ws_close 10%nat 1006 EmptyString]) in
  let w2 := after (ten_failures ++ [Ws_error 10%nat; Ws_close 10%nat 1006 EmptyString;
                                    Call_connect None]) in
  run sample_host ten_failures initial_world = Some w
  /\ reconnectAttempts (mgr w) = maxReconnectAttempts
  /\ run sample_host [Ws_error 10%nat; Ws_close 10%nat 1006 EmptyString] w = Some w1
  /\ step sample_host (Call_connect None) w1 = Some w2
  /\ notified_states (effects_since w w1) = [(7%nat, "error"); (7%nat, "disconnected")]
  /\ length (sockets w2) = S (length (sockets w1))
  /\ reconnectAttempts (mgr w2) = 10%nat
  /\ ~ ((exists label, label <> "error" /\ label <> "disconnected"
                       /\ (7%nat, label) ∈ notified_states (effects_since w w1))
        /\ reconnectAttempts (mgr w2) = 0%nat).
Proof.
  intros w w1 w2.
  repeat apply conj; try (vm_compute; reflexivity).
  intros [_ H]. vm_compute in H. discriminate H.
Qed.

(** C2, amended.  Once the counter has reached 10, a close event arms no
    timer and tells every observer the ordinary "disconnected" and nothing
    else; [scheduleReconnect] (the liveness-timeout path) only writes the
    "max attempts" console error; an explicit [connect] never touches the
    counter, and opens a new socket when the manager is neither connecting
    nor connected. *)
Theorem exhausted_stops_quietly h w :
  (maxReconnectAttempts <= reconnectAttempts (mgr w))%nat ->
  (forall code reason,
      let w' := exec (onclose h code reason) w in
      timers w' = cancel_opt (heartbeatTimeout (mgr w))
                    (cancel_opt (heartbeatInterval (mgr w)) (timers w))
      /\ next_timer w' = next_timer w
      /\ reconnectTimeout (mgr w') = reconnectTimeout (mgr w)
      /\ effects_since w w' =
           Console (LogDisconnected code reason)
             :: connection_calls h "disconnected" (CloseEvent code reason)
                  (connectionListeners (mgr w))
      /\ notified_states (effects_since w w') =
           map (fun cb => (cb, "disconnected")) (connectionListeners (mgr w)))
  /\ exec scheduleReconnect w = log [Console ErrMaxReconnect] w
  /\ (forall p, reconnectAttempts (mgr (exec (connect h p) w)) = reconnectAttempts (mgr w))
  /\ (forall p, isConnecting (mgr w) = false -> ws_is_open w = false ->
        WebSocket_accepts h (Config.buildWsUrl h (default "/ws" p)) = true ->
        sockets (exec (connect h p) w)
        = sockets w ++ [fresh_socket (Config.buildWsUrl h (default "/ws" p))]).
Proof.
  intros Hmax.
  assert (Hstop : forall code, should_reconnect code w = false).
  { intros code. unfold should_reconnect.
    assert ((reconnectAttempts (mgr w) <? maxReconnectAttempts)%nat = false) as ->
      by (apply Nat.ltb_ge; exact Hmax).
    apply andb_false_r. }
  repeat apply conj.
  - intros code reason w'. subst w'. rewrite onclose_eq, Hstop. cbn.
    unfold effects_since. cbn. rewrite drop_app_length, !app_nil_r.
    repeat apply conj; try reflexivity.
    cbn. apply notified_states_calls.
  - unfold exec. rewrite scheduleReconnect_eq. cbn.
    assert ((maxReconnectAttempts <=? reconnectAttempts (mgr w))%nat = true) as ->
      by (apply Nat.leb_le; exact Hmax).
    reflexivity.
  - intros p. rewrite exec_connect. split_ifs; reflexivity.
  - intros p Hc Ho Hacc. rewrite exec_connect, Hc, Ho. cbn. by rewrite Hacc.
Qed.

Lemma exhausted_stops_quietly_witness :
  let w := after ten_failures in
  (maxReconnectAttempts <= reconnectAttempts (mgr w))%nat
  /\ exec scheduleReconnect w = log [Console ErrMaxReconnect] w.
Proof.
  intros w.
  assert (H : (maxReconnectAttempts <= reconnectAttempts (mgr w))%nat)
    by (vm_compute; lia).
  split; [exact H|].
  exact (proj1 (proj2 (exhausted_stops_quietly sample_host w H))).
Defined.

(** ** Heartbeat *)

(** What the open handler arms: a 30 s ping interval and a 35 s liveness
    timeout, and no other heartbeat timer stays pending. *)
Lemma heartbeat_armed_on_open h w k w' :
  reachable h w ->
  step h (Ws_open k) w = Some w' ->
  pending HeartbeatPing (timers w') = [interval (next_timer w) HeartbeatPing 30000 (clock w)]
  /\ pending HeartbeatTimeout (timers w')
     = [one_shot (Pos.succ (next_timer w)) HeartbeatTimeout 35000 (clock w)]
  /\ heartbeatInterval (mgr w') = Some (next_timer w)
  /\ heartbeatTimeout (mgr w') = Some (Pos.succ (next_timer w)).
Proof.
  intros Hreach Hs.
  pose proof (wf_timers _ (reachable_wf _ _ Hreach)) as Hok.
  step_inv Hs. rewrite onopen_eq. cbn.
  assert (Hnone : forall t, t <> Reconnect ->
    pending t (cancel_opt (heartbeatTimeout (mgr w))
                 (cancel_opt (heartbeatInterval (mgr w)) (timers w))) = []).
  { intros t Ht. unfold pending.
    apply elem_of_nil_inv. intros x Hx.
    apply (list_elem_of_filter (fun y => task y = t)) in Hx. destruct Hx as [Hx1 Hx2].
    timers_tac. destruct t; [| |congruence].
    - pose proof (ping_owned _ Hok x Hx2 Hx1). congruence.
    - pose proof (timeout_owned _ Hok x Hx2 Hx1). congruence. }
  repeat apply conj; try reflexivity.
  - rewrite pending_app, Hnone by discriminate. reflexivity.
  - rewrite pending_app, Hnone by discriminate. reflexivity.
Qed.

(** The ping closure writes one "ping" frame to the current socket when it
    is open and the payload serialises. *)
Lemma ping_sent_when_open h w k text :
  ws (mgr w) = Some k -> readyState_of k w = OPEN ->
  JSON_stringify h (JObj [("type", JStr "ping")]) = Some text ->
  exec (run_task h HeartbeatPing) w = with_sockets (alter (push_frame text) k) w.
Proof.
  intros Hk Hopen Htext. rewrite run_task_eq, exec_send.
  unfold ws_is_open. rewrite Hk, Hopen, Htext. reflexivity.
Qed.

(** The liveness-timeout closure closes the socket with code 1000, drops
    it, and arms a reconnect when retries are left. *)
Lemma liveness_timeout_reconnects h w :
  (reconnectAttempts (mgr w) < maxReconnectAttempts)%nat ->
  let w' := exec (run_task h HeartbeatTimeout) w in
  ws (mgr w') = None
  /\ sockets w' = match ws (mgr w) with
                  | Some k => alter (start_close 1000 "Client disconnect") k (sockets w)
                  | None => sockets w
                  end
  /\ timers w' = cancel_opt (heartbeatTimeout (mgr w))
                   (cancel_opt (heartbeatInterval (mgr w))
                      (cancel_opt (reconnectTimeout (mgr w)) (timers w)))
                 ++ [one_shot (next_timer w) Reconnect
                       (backoff (reconnectAttempts (mgr w))) (clock w)].
Proof.
  intros Hn w'. subst w'. rewrite run_task_eq. unfold exec.
  rewrite disconnect_eq. cbn. rewrite scheduleReconnect_eq. cbn.
  assert ((maxReconnectAttempts <=? reconnectAttempts (mgr w))%nat = false) as ->
    by (apply Nat.leb_gt; exact Hn).
  cbn. repeat apply conj; reflexivity.
Qed.

(** C3 fails on the code at [stale_close].  The close handler of the
    dropped socket disarms the heartbeat of the connection that replaced
    it: the manager is connected, no heartbeat timer is pending, and
    however much time passes without a pong, no ping is sent, the socket is
    not closed and no reconnect is scheduled. *)
Theorem heartbeat_lost_after_stale_close :
  let w := after stale_close in
  run sample_host stale_close initial_world = Some w
  /\ getState w = "connected"
  /\ isConnected w = Some true
  /\ heartbeatInterval (mgr w) = None
  /\ heartbeatTimeout (mgr w) = None
  /\ timers w = []
  /\ (forall es w', Forall time_only es -> run sample_host es w = Some w' ->
        timers w' = [] /\ mgr w' = mgr w /\ sockets w' = sockets w
        /\ trace w' = trace w /\ getState w' = "connected"
        /\ (sent <$> sockets w' !! 1%nat) = Some []).
Proof.
  intros w. repeat apply conj; try (vm_compute; reflexivity).
  intros es w' Hes.
  assert (Hinv : forall v, timers v = [] -> mgr v = mgr w -> sockets v = sockets w ->
                           trace v = trace w -> run sample_host es v = Some w' ->
            timers w' = [] /\ mgr w' = mgr w /\ sockets w' = sockets w
            /\ trace w' = trace w).
  { induction Hes as [|e es He Hes IH]; intros v Ht Hm Hs Htr Hrun; cbn in Hrun.
    - injection Hrun as <-. auto.
    - destruct e; try (destruct He); cbn in Hrun.
      + rewrite Ht in Hrun. cbn in Hrun. discriminate Hrun.
      + destruct (0 <=? ms)%Z; [|discriminate Hrun].
        apply IH in Hrun; auto. }
  intros Hrun. destruct (Hinv w eq_refl eq_refl eq_refl eq_refl Hrun)
    as (Ht & Hm & Hs & Htr).
  repeat apply conj; try assumption.
  - unfold getState, readyState_of. rewrite Hm, Hs. vm_compute. reflexivity.
  - rewrite Hs. vm_compute. reflexivity.
Qed.

(** ** Clean close *)

(** What the close handler does on a close event with code 1000: it arms
    no timer and issues no handle, the timers left are reconnect timers
    that were already pending, the heartbeat handles are null and no
    heartbeat timer is pending, and every observer is told "disconnected".
    [getState] is "disconnected" afterwards when the closed socket is the
    one the manager holds (or it holds none). *)
Lemma clean_close_never_reconnects h w k reason w' :
  reachable h w ->
  step h (Ws_close k 1000 reason) w = Some w' ->
  timers w' = cancel_opt (heartbeatTimeout (mgr w))
                (cancel_opt (heartbeatInterval (mgr w)) (timers w))
  /\ next_timer w' = next_timer w
  /\ reconnectTimeout (mgr w') = reconnectTimeout (mgr w)
  /\ pending Reconnect (timers w') = pending Reconnect (timers w)
  /\ (forall t, t ∈ timers w' -> t ∈ timers w /\ task t = Reconnect)
  /\ heartbeatInterval (mgr w') = None
  /\ heartbeatTimeout (mgr w') = None
  /\ reconnectAttempts (mgr w') = reconnectAttempts (mgr w)
  /\ notified_states (effects_since w w')
     = map (fun cb => (cb, "disconnected")) (connectionListeners (mgr w))
  /\ (ws (mgr w) = Some k \/ ws (mgr w) = None -> getState w' = "disconnected").
Proof.
  intros Hreach Hs.
  pose proof (wf_timers _ (reachable_wf _ _ Hreach)) as Hok.
  step_inv Hs. rewrite onclose_eq.
  assert (Hgo : should_reconnect 1000 (host_closed k w) = false) by reflexivity.
  rewrite Hgo. cbn. rewrite !app_nil_r.
  repeat apply conj; try reflexivity.
  - by apply pending_stopped.
  - intros t Ht. timers_tac. split; [exact Ht|].
    destruct (task t) eqn:E; [| |reflexivity].
    + pose proof (ping_owned _ Hok t Ht E). congruence.
    + pose proof (timeout_owned _ Hok t Ht E). congruence.
  - unfold effects_since. cbn. rewrite drop_app_length. cbn.
    apply notified_states_calls.
  - intros [Hk|Hk]; unfold getState, readyState_of; cbn; rewrite Hk; [|reflexivity].
    rewrite list_lookup_alter_eq, Heqo. reflexivity.
Qed.

Lemma clean_close_never_reconnects_witness :
  let w := after up_and_open in
  let w' := after (up_and_open ++ [Ws_close 0%nat 1000 "bye"]) in
  reachable sample_host w
  /\ step sample_host (Ws_close 0%nat 1000 "bye") w = Some w'
  /\ timers w' = [] /\ getState w' = "disconnected".
Proof.
  intros w w'.
  assert (H1 : reachable sample_host w) by (exists up_and_open; vm_compute; reflexivity).
  assert (H2 : step sample_host (Ws_close 0%nat 1000 "bye") w = Some w')
    by (vm_compute; reflexivity).
  pose proof (clean_close_never_reconnects sample_host w 0%nat "bye" w' H1 H2) as H.
  repeat apply conj; try assumption.
  - exact (proj1 H).
  - apply H. left. vm_compute. reflexivity.
Defined.

(** Without a pending timer, the passing of time changes nothing. *)
Lemma quiet_without_timers h es : forall w w',
  Forall time_only es -> timers w = [] -> run h es w = Some w' ->
  timers w' = [] /\ mgr w' = mgr w /\ sockets w' = sockets w /\ trace w' = trace w.
Proof.
  induction es as [|e es IH]; intros w w' Hes Ht Hrun; cbn in Hrun.
  - injection Hrun as <-. auto.
  - apply Forall_cons in Hes. destruct Hes as [He Hes].
    destruct e; try (destruct He); cbn in Hrun.
    + rewrite Ht in Hrun. cbn in Hrun. discriminate Hrun.
    + destruct (0 <=? ms)%Z; [|discriminate Hrun].
      apply IH in Hrun; auto.
Qed.

(** C4 fails on the code at [close_after_replacement].  The page
    disconnects and connects again, the replacement socket opens, and then
    the close event of the first socket (code 1000, the manager's own
    [disconnect]) is delivered.  No reconnect is armed and the observers are
    told "disconnected", but the state does not settle at disconnected:
    [getState] stays "connected" on the replacement, whose heartbeat the
    handler has disarmed, and stays so however much time passes. *)
Theorem clean_close_of_replaced_socket :
  let before := after replaced_and_open in
  let w := after close_after_replacement in
  run sample_host close_after_replacement initial_world = Some w
  /\ step sample_host (Ws_close 0%nat 1000 "Client disconnect") before = Some w
  /\ (close_requested <$> sockets before !! 0%nat)
     = Some (Some (1000, "Client disconnect"))
  /\ getState before = "connected"
  /\ task <$> timers before = [HeartbeatPing; HeartbeatTimeout]
  /\ notified_states (effects_since before w) = [(7%nat, "disconnected")]
  /\ getState w = "connected"
  /\ isConnected w = Some true
  /\ heartbeatInterval (mgr w) = None
  /\ heartbeatTimeout (mgr w) = None
  /\ timers w = []
  /\ (forall es w', Forall time_only es -> run sample_host es w = Some w' ->
        getState w' = "connected" /\ timers w' = []
        /\ (sent <$> sockets w' !! 1%nat) = Some []).
Proof.
  intros before w. repeat apply conj; try (vm_compute; reflexivity).
  intros es w' Hes Hrun.
  destruct (quiet_without_timers sample_host es w w' Hes eq_refl Hrun)
    as (Ht & Hm & Hs & _).
  repeat apply conj; [|exact Ht|].
  - unfold getState, readyState_of. rewrite Hm, Hs. vm_compute. reflexivity.
  - rewrite Hs. vm_compute. reflexivity.
Qed.

(** ** connect, send, inbound frames *)

(** The guard of [connect]: while [isConnecting] is set or the held
    socket is open, [connect(path)] returns an already-resolved promise and
    changes nothing, so no socket is constructed. *)
Lemma connect_idempotent h w p :
  isConnecting (mgr w) = true \/ getState w = "connected" ->
  connect h p w = (Resolved, w)
  /\ length (sockets (exec (connect h p) w)) = length (sockets w).
Proof.
  intros Hbusy.
  assert (Hguard : isConnecting (mgr w) || ws_is_open w = true).
  { destruct Hbusy as [Hc|Hopen].
    - by rewrite Hc.
    - apply getState_connected in Hopen. rewrite Hopen. apply orb_true_r. }
  assert (Heq : connect h p w = (Resolved, w)) by (by rewrite connect_eq, Hguard).
  split; [exact Heq|]. unfold exec. by rewrite Heq.
Qed.

Lemma connect_idempotent_witness :
  let w := after up_and_open in
  (isConnecting (mgr w) = true \/ getState w = "connected")
  /\ connect sample_host (Some "/other") w = (Resolved, w)
  /\ length (sockets w) = 1%nat.
Proof.
  intros w.
  assert (H : isConnecting (mgr w) = true \/ getState w = "connected")
    by (right; vm_compute; reflexivity).
  repeat apply conj; [exact H | | vm_compute; reflexivity].
  exact (proj1 (connect_idempotent sample_host w (Some "/other") H)).
Defined.

(** C5 fails on the code at [close_while_reconnecting].  The page
    disconnects and connects again; while the replacement socket is still
    connecting, the close event of the first socket is delivered and its
    handler clears [isConnecting].  The manager is mid-connect ([getState]
    is "connecting"), yet a further [connect] passes the guard and
    constructs a second transport next to the one in flight; both then
    open. *)
Theorem second_transport_while_connecting :
  let w := after close_while_reconnecting in
  let w' := exec (connect sample_host (Some "/live")) w in
  run sample_host close_while_reconnecting initial_world = Some w
  /\ getState w = "connecting"
  /\ ws (mgr w) = Some 1%nat
  /\ readyState <$> sockets w = [CLOSED; CONNECTING]
  /\ isConnecting (mgr w) = false
  /\ result (connect sample_host (Some "/live")) w = Pending 2
  /\ readyState <$> sockets w' = [CLOSED; CONNECTING; CONNECTING]
  /\ ws (mgr w') = Some 2%nat
  /\ (readyState <$>
        sockets (default w' (run sample_host [Ws_open 1%nat; Ws_open 2%nat] w')))
     = [CLOSED; OPEN; OPEN].
Proof.
  intros w w'. repeat apply conj; vm_compute; reflexivity.
Qed.

(** C6. [send(payload)] returns a boolean.  It returns [true] exactly
    when the socket is open and the payload serialises, and then the
    serialised payload has been appended to the outgoing frames of that
    socket and nothing else has changed.  When the manager is not connected
    it returns [false] and the only effect is a console warning: fields,
    sockets and timers are untouched, nothing is queued.  A payload that
    does not serialise is reported the same way, with a console error. *)
Theorem send_only_when_open h w data :
  let ok := result (send h data) w in
  let w' := exec (send h data) w in
  (ok = true ->
     getState w = "connected"
     /\ exists k text, ws (mgr w) = Some k /\ JSON_stringify h data = Some text
        /\ w' = with_sockets (alter (push_frame text) k) w)
  /\ (getState w <> "connected" ->
        ok = false /\ w' = log [Console WarnNotConnected] w)
  /\ (ok = false ->
        mgr w' = mgr w /\ sockets w' = sockets w /\ timers w' = timers w
        /\ exists msg, w' = log [Console msg] w)
  /\ (ok = true <->
        getState w = "connected" /\ exists text, JSON_stringify h data = Some text)
  /\ (forall k text,
        ws (mgr w) = Some k -> readyState_of k w = OPEN ->
        JSON_stringify h data = Some text ->
        ok = true
        /\ w' = with_sockets (alter (push_frame text) k) w
        /\ (exists s, sockets w !! k = Some s
              /\ sockets w' !! k = Some (push_frame text s)
              /\ sent (push_frame text s) = sent s ++ [text])
        /\ (forall j, j <> k -> sockets w' !! j = sockets w !! j)
        /\ mgr w' = mgr w /\ timers w' = timers w /\ trace w' = trace w)
  /\ (getState w = "connected" -> JSON_stringify h data = None ->
        ok = false /\ w' = log [Console ErrSendFailed] w).
Proof.
  intros ok w'. subst ok w'. unfold result, exec. rewrite send_eq.
  destruct (ws_is_open w) eqn:Hopen.
  - assert (Hst : getState w = "connected") by (by apply getState_connected).
    destruct (ws (mgr w)) as [k|] eqn:Hk.
    + assert (Hrs : readyState_of k w = OPEN).
      { unfold ws_is_open in Hopen. rewrite Hk in Hopen. by apply Nat.eqb_eq. }
      destruct (JSON_stringify h data) as [text|] eqn:Ht; cbn.
      * refine (conj _ (conj _ (conj _ (conj _ (conj _ _))))).
        -- intros _. split; [exact Hst|]. by exists k, text.
        -- congruence.
        -- discriminate.
        -- split; [|reflexivity]. intros _. split; [exact Hst|]. by exists text.
        -- intros k' text' Hk' _ Ht'. injection Hk' as <-. injection Ht' as <-.
           unfold readyState_of in Hrs.
           destruct (sockets w !! k) as [s|] eqn:Hs; [|discriminate Hrs].
           refine (conj eq_refl (conj eq_refl (conj _ (conj _ _)))).
           ++ exists s. refine (conj eq_refl (conj _ eq_refl)).
              by rewrite list_lookup_alter_eq, Hs.
           ++ intros j Hj. by apply list_lookup_alter_ne.
           ++ repeat split.
        -- discriminate.
      * refine (conj _ (conj _ (conj _ (conj _ (conj _ _))))).
        -- discriminate.
        -- congruence.
        -- intros _. repeat apply conj; try reflexivity. by eexists.
        -- split; [discriminate|]. intros [_ [text Ht']]. discriminate Ht'.
        -- intros k' text' _ _ Ht'. discriminate Ht'.
        -- intros _ _. split; reflexivity.
    + unfold ws_is_open in Hopen. rewrite Hk in Hopen. discriminate Hopen.
  - assert (Hst : getState w <> "connected").
    { intros Hc. apply getState_connected in Hc. congruence. }
    cbn. refine (conj _ (conj _ (conj _ (conj _ (conj _ _))))).
    + discriminate.
    + intros _. split; reflexivity.
    + intros _. repeat apply conj; try reflexivity. by eexists.
    + split; [discriminate|]. intros [Hc _]. contradiction.
    + intros k text Hk Hrs _. exfalso. apply Hst. apply getState_connected.
      unfold ws_is_open. rewrite Hk, Hrs. reflexivity.
    + intros Hc. contradiction.
Qed.

Lemma send_only_when_open_witness :
  let w := after up_and_open in
  let data := JObj [("type", JStr "subscribe")] in
  ws (mgr w) = Some 0%nat
  /\ readyState_of 0%nat w = OPEN
  /\ JSON_stringify sample_host data = Some "type=subscribe"
  /\ result (send sample_host data) w = true
  /\ exec (send sample_host data) w
     = with_sockets (alter (push_frame "type=subscribe") 0%nat) w.
Proof.
  intros w data.
  assert (H1 : ws (mgr w) = Some 0%nat) by (vm_compute; reflexivity).
  assert (H2 : readyState_of 0%nat w = OPEN) by (vm_compute; reflexivity).
  assert (H3 : JSON_stringify sample_host data = Some "type=subscribe") by reflexivity.
  pose proof (proj1 (proj2 (proj2 (proj2 (proj2
    (send_only_when_open sample_host w data))))) 0%nat "type=subscribe" H1 H2 H3) as H.
  refine (conj H1 (conj H2 (conj H3 (conj (proj1 H) (proj1 (proj2 H)))))).
Defined.

Lemma nodup_once (cb : nat) (l : list nat) :
  NoDup l -> cb ∈ l -> length (filter (fun c => c = cb) l) = 1%nat.
Proof.
  induction 1 as [|x l Hx Hl IH]; intros Hin.
  - by apply elem_of_nil in Hin.
  - rewrite filter_cons. destruct (decide (x = cb)) as [->|Hne]; cbn.
    + f_equal. apply length_zero_iff_nil. apply elem_of_nil_inv. intros y Hy.
      apply (list_elem_of_filter (fun c => c = cb)) in Hy. destruct Hy as [-> Hy].
      contradiction.
    + apply IH. apply elem_of_cons in Hin. destruct Hin as [->|Hin]; [congruence|exact Hin].
Qed.

Lemma absent_never (cb : nat) (l : list nat) :
  cb ∉ l -> length (filter (fun c => c = cb) l) = 0%nat.
Proof.
  intros Hn. apply length_zero_iff_nil. apply elem_of_nil_inv. intros y Hy.
  apply (list_elem_of_filter (fun c => c = cb)) in Hy. destruct Hy as [-> Hy].
  contradiction.
Qed.

Example send_while_disconnected :
  send sample_host (JObj [("type", JStr "subscribe")]) initial_world
  = (false, log [Console WarnNotConnected] initial_world).
Proof. reflexivity. Qed.

Example send_while_connected :
  let w := after up_and_open in
  result (send sample_host (JObj [("type", JStr "subscribe")])) w = true
  /\ (sent <$> sockets (exec (send sample_host (JObj [("type", JStr "subscribe")])) w))
     = [["type=subscribe"]].
Proof. split; vm_compute; reflexivity. Qed.



(** ** State labels *)

(** C8, as stated, fails on the code: once the peer has started the
    closing handshake on the open socket, [getState] answers "closing",
    which is none of the four labels. *)
Lemma getState_closing_reachable :
  let w := after (up_and_open ++ [Ws_closing 0%nat]) in
  reachable sample_host w
  /\ getState w = "closing"
  /\ ~ In (getState w) ["disconnected"; "connecting"; "connected"; "error"].
Proof.
  intros w. repeat apply conj.
  - exists (up_and_open ++ [Ws_closing 0%nat]). vm_compute. reflexivity.
  - vm_compute. reflexivity.
  - vm_compute. intros [H|[H|[H|[H|[]]]]]; discriminate H.
Qed.

(** C8, amended.  On every reachable world [getState] answers
    "disconnected", "connecting", "connected" or "closing" (never "error",
    never "unknown"); the answer depends only on the socket the manager
    holds and that socket's [readyState], not on the [isConnecting] flag;
    and [isConnected()] is [true] exactly when the answer is "connected". *)
Theorem getState_labels h w :
  reachable h w ->
  In (getState w) ["disconnected"; "connecting"; "connected"; "closing"]
  /\ getState w <> "error"
  /\ getState w <> "unknown"
  /\ (forall v, ws (mgr v) = ws (mgr w) -> sockets v = sockets w ->
        getState v = getState w)
  /\ (forall b, getState (with_mgr (set_isConnecting b) w) = getState w)
  /\ (isConnected w = Some true <-> getState w = "connected").
Proof.
  intros Hreach.
  destruct (wf_sockets _ (reachable_wf _ _ Hreach)) as [Hb Hr].
  assert (Hrange : forall k, ws (mgr w) = Some k -> (readyState_of k w <= CLOSED)%nat).
  { intros k Hk. unfold readyState_of.
    destruct (sockets w !! k) as [s|] eqn:Hs; [|unfold CLOSED; lia].
    eapply Forall_lookup_1 in Hr; [exact Hr|exact Hs]. }
  assert (Hiff : isConnected w = Some true <-> getState w = "connected").
  { rewrite getState_connected. unfold isConnected, ws_is_open.
    destruct (ws (mgr w)); split; congruence. }
  unfold getState in *.
  destruct (ws (mgr w)) as [k|] eqn:Hk.
  - specialize (Hrange k eq_refl). unfold CLOSED in Hrange.
    refine (conj _ (conj _ (conj _ (conj _ (conj _ Hiff))))).
    + destruct (readyState_of k w) as [|[|[|[|n]]]]; cbn; try lia; tauto.
    + destruct (readyState_of k w) as [|[|[|[|n]]]]; discriminate.
    + destruct (readyState_of k w) as [|[|[|[|n]]]]; try discriminate; lia.
    + intros v Hv Hs. rewrite Hv. unfold readyState_of. by rewrite Hs.
    + intros b. cbn. by rewrite Hk.
  - refine (conj _ (conj _ (conj _ (conj _ (conj _ Hiff))))); try discriminate.
    + cbn. tauto.
    + intros v Hv Hs. by rewrite Hv.
    + intros b. cbn. by rewrite Hk.
Qed.

Lemma getState_labels_witness :
  let w := after (up_and_open ++ [Ws_closing 0%nat]) in
  reachable sample_host w
  /\ In (getState w) ["disconnected"; "connecting"; "connected"; "closing"].
Proof.
  intros w.
  assert (H : reachable sample_host w)
    by (exists (up_and_open ++ [Ws_closing 0%nat]); vm_compute; reflexivity).
  split; [exact H|].
  exact (proj1 (getState_labels sample_host w H)).
Defined.

(** ** The failure counter *)

Lemma step_counter h e w w' :
  step h e w = Some w' ->
  (exists k, e = Ws_open k /\ reconnectAttempts (mgr w') = 0%nat)
  \/ ((forall k, e <> Ws_open k)
      /\ (reconnectAttempts (mgr w) <= reconnectAttempts (mgr w'))%nat).
Proof.
  intros Hs. destruct e; try (right; split; [discriminate|]);
    step_inv Hs; crunch; try lia.
  left. exists k. split; reflexivity.
Qed.

(** C9. Along any run of the event loop, the counter can only go down at
    an open event, which sets it to zero; over a run without open events
    it never decreases. *)
Theorem failure_counter_discipline h es w w' :
  run h es w = Some w' ->
  ((forall k, ~ In (Ws_open k) es) ->
     (reconnectAttempts (mgr w) <= reconnectAttempts (mgr w'))%nat)
  /\ ((reconnectAttempts (mgr w') < reconnectAttempts (mgr w))%nat ->
        exists k, In (Ws_open k) es)
  /\ (forall e v v', step h e v = Some v' ->
        (reconnectAttempts (mgr v') < reconnectAttempts (mgr v))%nat ->
        exists k, e = Ws_open k /\ reconnectAttempts (mgr v') = 0%nat)
  /\ (forall k v v', step h (Ws_open k) v = Some v' ->
        reconnectAttempts (mgr v') = 0%nat).
Proof.
  intros Hrun.
  assert (Hmono : forall es w w', run h es w = Some w' ->
            (forall k, ~ In (Ws_open k) es) ->
            (reconnectAttempts (mgr w) <= reconnectAttempts (mgr w'))%nat).
  { clear. induction es as [|e es IH]; intros w w' Hrun Hno; cbn in Hrun.
    - injection Hrun as <-. lia.
    - destruct (step h e w) as [w1|] eqn:Hs; [|discriminate].
      destruct (step_counter _ _ _ _ Hs) as [[k [-> _]]|[_ Hle]].
      + exfalso. apply (Hno k). by left.
      + etrans; [exact Hle|]. eapply IH; [exact Hrun|].
        intros k Hk. apply (Hno k). by right. }
  repeat apply conj.
  - by apply Hmono.
  - intros Hlt.
    assert (Hdec : forall es, (forall k, ~ In (Ws_open k) es) \/ exists k, In (Ws_open k) es).
    { clear. induction es as [|e es [IH|[k IH]]].
      - left. intros k [].
      - destruct e; try (left; intros k' [Hk'|Hk']; [discriminate Hk'|by apply (IH k')]).
        right. exists k. by left.
      - right. exists k. by right. }
    destruct (Hdec es) as [Hno|Hyes]; [|exact Hyes].
    pose proof (Hmono _ _ _ Hrun Hno). lia.
  - intros e v v' Hs Hlt.
    destruct (step_counter _ _ _ _ Hs) as [[k [-> H0]]|[_ Hle]]; [by exists k|lia].
  - intros k v v' Hs.
    destruct (step_counter _ _ _ _ Hs) as [[k' [_ H0]]|[Hne _]]; [exact H0|].
    by destruct (Hne k).
Qed.

Lemma failure_counter_discipline_witness :
  let es := [Ws_error 0%nat; Ws_close 0%nat 1006 EmptyString; Tick 1000; Timer_fire 1] in
  let w := after [Call_connect None] in
  let w' := after (Call_connect None :: es) in
  run sample_host es w = Some w'
  /\ (reconnectAttempts (mgr w) <= reconnectAttempts (mgr w'))%nat
  /\ reconnectAttempts (mgr w') = 1%nat.
Proof.
  intros es w w'.
  assert (H : run sample_host es w = Some w') by (vm_compute; reflexivity).
  repeat apply conj; [exact H | | vm_compute; reflexivity].
  apply (proj1 (failure_counter_discipline sample_host es w w' H)).
  intros k [E|[E|[E|[E|[]]]]]; discriminate E.
Defined.

(** ** The path of automatic reconnects *)

(** C10. When a reconnect timer fires, the manager increments the counter
    and calls [connect] without argument, which is [connect('/ws')]: if a
    socket is constructed at all its URL is [buildWsUrl('/ws')], whatever
    path earlier explicit calls were given. *)
Theorem reconnect_targets_default_path h w id t w' :
  find_timer id (timers w) = Some t ->
  task t = Reconnect ->
  step h (Timer_fire id) w = Some w' ->
  w' = exec (connect h None) (with_mgr bump (host_fired t w))
  /\ connect h None = connect h (Some "/ws")
  /\ (sockets w' = sockets w
      \/ sockets w' = sockets w ++ [fresh_socket (Config.buildWsUrl h "/ws")])
  /\ (forall s, sockets w' = sockets w ++ [s] -> url s = Config.buildWsUrl h "/ws").
Proof.
  intros Hfind Htask Hs. unfold step in Hs. rewrite Hfind in Hs.
  destruct (due t <=? clock w)%Z; [|discriminate Hs].
  injection Hs as <-. rewrite Htask, run_task_eq.
  assert (Hsock : sockets (exec (connect h None) (with_mgr bump (host_fired t w)))
                  = sockets w
               \/ sockets (exec (connect h None) (with_mgr bump (host_fired t w)))
                  = sockets w ++ [fresh_socket (Config.buildWsUrl h "/ws")]).
  { rewrite exec_connect. split_ifs; auto. }
  repeat apply conj; try reflexivity; [exact Hsock|].
  intros s Hsnoc. destruct Hsock as [Hsame|Hnew].
  - rewrite Hsame in Hsnoc. apply (f_equal length) in Hsnoc.
    rewrite length_app in Hsnoc. cbn in Hsnoc. lia.
  - rewrite Hnew in Hsnoc. apply app_inj_tail in Hsnoc. destruct Hsnoc as [_ <-].
    reflexivity.
Qed.

Lemma reconnect_targets_default_path_witness :
  let w := after (up_and_open ++ [Ws_close 0%nat 1006 EmptyString; Tick 1000]) in
  let w' := after (up_and_open ++ [Ws_close 0%nat 1006 EmptyString; Tick 1000; Timer_fire 3]) in
  let t := one_shot 3 Reconnect 1000 0 in
  find_timer 3 (timers w) = Some t
  /\ task t = Reconnect
  /\ step sample_host (Timer_fire 3) w = Some w'
  /\ (url <$> sockets w') = ["ws://localhost:3000/ws/live"; "ws://localhost:3000/ws/ws"]
  /\ (forall s, sockets w' = sockets w ++ [s] -> url s = "ws://localhost:3000/ws/ws").
Proof.
  intros w w' t.
  assert (H1 : find_timer 3 (timers w) = Some t) by (vm_compute; reflexivity).
  assert (H2 : task t = Reconnect) by reflexivity.
  assert (H3 : step sample_host (Timer_fire 3) w = Some w') by (vm_compute; reflexivity).
  repeat apply conj; try assumption; [vm_compute; reflexivity|].
  exact (proj2 (proj2 (proj2
    (reconnect_targets_default_path sample_host w 3 t w' H1 H2 H3)))).
Defined.

(** * Further properties of the manager *)

(** ** disconnect *)

(** X1. [disconnect()] is idempotent: a second call changes nothing. *)
Theorem disconnect_idempotent w :
  exec disconnect (exec disconnect w) = exec disconnect w.
Proof.
  unfold exec. rewrite !disconnect_eq. destruct_world w. cbn. reflexivity.
Qed.



(** X2. On a reachable world [disconnect()] leaves the manager without a
    socket ([getState] is "disconnected"), with no heartbeat timer pending
    and with the reconnect timer it held cancelled; it arms nothing, keeps
    the failure counter, the [isConnecting] flag and the listeners, and
    notifies nobody (the trace is unchanged).  The socket it held, if not
    already closing or closed, is now closing with code 1000. *)
Theorem disconnect_clears h w :
  reachable h w ->
  let w' := exec disconnect w in
  getState w' = "disconnected"
  /\ isConnected w' = None
  /\ pending HeartbeatPing (timers w') = []
  /\ pending HeartbeatTimeout (timers w') = []
  /\ (forall t, t ∈ timers w' ->
        t ∈ timers w /\ task t = Reconnect
        /\ reconnectTimeout (mgr w) <> Some (timer_id t))
  /\ next_timer w' = next_timer w
  /\ reconnectAttempts (mgr w') = reconnectAttempts (mgr w)
  /\ isConnecting (mgr w') = isConnecting (mgr w)
  /\ connectionListeners (mgr w') = connectionListeners (mgr w)
  /\ messageListeners (mgr w') = messageListeners (mgr w)
  /\ trace w' = trace w
  /\ (forall k s, ws (mgr w) = Some k -> sockets w !! k = Some s ->
        readyState s = CONNECTING \/ readyState s = OPEN ->
        exists s', sockets w' !! k = Some s'
                   /\ readyState s' = CLOSING
                   /\ close_requested s' = Some (1000, "Client disconnect")
                   /\ sent s' = sent s).
Proof.
  intros Hreach w'. subst w'.
  pose proof (wf_timers _ (reachable_wf _ _ Hreach)) as Hok.
  unfold exec. rewrite disconnect_eq. cbn.
  assert (Hmem : forall t,
    t ∈ cancel_opt (heartbeatTimeout (mgr w))
          (cancel_opt (heartbeatInterval (mgr w))
             (cancel_opt (reconnectTimeout (mgr w)) (timers w))) ->
    t ∈ timers w /\ task t = Reconnect /\ reconnectTimeout (mgr w) <> Some (timer_id t)).
  { intros t Ht. timers_tac. repeat split; try assumption.
    destruct (task t) eqn:E; [| |reflexivity].
    - pose proof (ping_owned _ Hok t Ht E). congruence.
    - pose proof (timeout_owned _ Hok t Ht E). congruence. }
  assert (Hnone : forall tk, tk <> Reconnect ->
    pending tk (cancel_opt (heartbeatTimeout (mgr w))
          (cancel_opt (heartbeatInterval (mgr w))
             (cancel_opt (reconnectTimeout (mgr w)) (timers w)))) = []).
  { intros tk Htk. unfold pending. apply elem_of_nil_inv. intros x Hx.
    apply (list_elem_of_filter (fun y => task y = tk)) in Hx. destruct Hx as [Hx1 Hx2].
    destruct (Hmem x Hx2) as (_ & Hr & _). congruence. }
  repeat apply conj; try reflexivity; try (apply Hnone; discriminate); try exact Hmem.
  intros k s Hk Hs Hst. rewrite Hk, list_lookup_alter_eq, Hs. cbn.
  eexists. split; [reflexivity|]. unfold start_close.
  destruct Hst as [->| ->]; cbn; repeat split; reflexivity.
Qed.

Lemma disconnect_clears_witness :
  let w := after up_and_open in
  reachable sample_host w
  /\ getState (exec disconnect w) = "disconnected"
  /\ timers (exec disconnect w) = [].
Proof.
  intros w.
  assert (H : reachable sample_host w) by (exists up_and_open; vm_compute; reflexivity).
  repeat apply conj; [exact H | | vm_compute; reflexivity].
  exact (proj1 (disconnect_clears sample_host w H)).
Defined.

(** X3. [disconnect()] does not clear the [isConnecting] flag.  When it
    is called while a connect is in flight, the manager ends up without a
    socket ([getState] is "disconnected") and yet the next [connect()] is
    answered by the guard as a resolved no-op: no socket is constructed. *)
Theorem connect_after_disconnect_in_flight h w p :
  isConnecting (mgr w) = true ->
  let w' := exec disconnect w in
  getState w' = "disconnected"
  /\ connect h p w' = (Resolved, w')
  /\ sockets (exec (connect h p) w') = sockets w'.
Proof.
  intros Hc w'. subst w'.
  assert (Hflag : isConnecting (mgr (exec disconnect w)) = true).
  { unfold exec. rewrite disconnect_eq. cbn. exact Hc. }
  assert (Hst : getState (exec disconnect w) = "disconnected").
  { unfold exec. rewrite disconnect_eq. reflexivity. }
  assert (Heq : connect h p (exec disconnect w) = (Resolved, exec disconnect w)).
  { rewrite connect_eq, Hflag. reflexivity. }
  repeat apply conj; [exact Hst | exact Heq |].
  unfold exec at 1. rewrite Heq. reflexivity.
Qed.

Lemma connect_after_disconnect_in_flight_witness :
  let w := after [Call_connect None] in
  isConnecting (mgr w) = true
  /\ connect sample_host None (exec disconnect w) = (Resolved, exec disconnect w)
  /\ ws (mgr (exec disconnect w)) = None.
Proof.
  intros w.
  assert (H : isConnecting (mgr w) = true) by (vm_compute; reflexivity).
  repeat apply conj; [exact H | | vm_compute; reflexivity].
  exact (proj1 (proj2 (connect_after_disconnect_in_flight sample_host w None H))).
Defined.

(** ** Listeners and notifications *)

Lemma notified_states_app es1 es2 :
  notified_states (es1 ++ es2) = notified_states es1 ++ notified_states es2.
Proof.
  induction es1 as [|e es1 IH]; [reflexivity|].
  destruct e; cbn; rewrite ?IH; reflexivity.
Qed.

Lemma notified_states_message_calls h data l :
  notified_states (message_calls h data l) = [].
Proof.
  unfold message_calls. induction l as [|cb l IH]; [reflexivity|]. cbn.
  destruct (message_listener_throws h cb data); cbn; exact IH.
Qed.

Lemma message_deliveries_connection_calls h state event l :
  message_deliveries (connection_calls h state event l) = [].
Proof.
  unfold connection_calls. induction l as [|cb l IH]; [reflexivity|]. cbn.
  destruct (connection_listener_throws h cb state); cbn; exact IH.
Qed.

Ltac since_trace :=
  unfold effects_since; cbn; rewrite <- ?app_assoc;
  first [rewrite drop_app_length | rewrite drop_all].

Ltac read_notified :=
  rewrite ?notified_states_app, ?notified_states_calls,
    ?notified_states_message_calls; cbn;
  rewrite ?notified_states_app, ?notified_states_calls,
    ?notified_states_message_calls, ?app_nil_r.

Ltac read_deliveries :=
  rewrite ?message_deliveries_app, ?message_deliveries_calls,
    ?message_deliveries_connection_calls; cbn;
  rewrite ?message_deliveries_app, ?message_deliveries_calls,
    ?message_deliveries_connection_calls, ?app_nil_r.

Lemma step_notified h e w w' :
  step h e w = Some w' ->
  notified_states (effects_since w w')
  = match announced e with
    | Some label => map (fun cb => (cb, label)) (connectionListeners (mgr w))
    | None => []
    end.
Proof.
  intros Hs. destruct e; step_inv Hs; crunch; since_trace; read_notified;
    reflexivity.
Qed.

(** The payload a step hands to the message listeners, if any. *)
Lemma step_delivered h e w w' :
  step h e w = Some w' ->
  message_deliveries (effects_since w w')
  = match e with
    | Ws_message _ text =>
        match JSON_parse h text with
        | Some data => map (fun cb => (cb, data)) (messageListeners (mgr w))
        | None => []
        end
    | _ => []
    end.
Proof.
  intros Hs. destruct e; step_inv Hs; crunch; since_trace; read_deliveries;
    try reflexivity.
Qed.

Lemma step_trace_extends h e w w' :
  step h e w = Some w' -> trace w' = trace w ++ effects_since w w'.
Proof.
  intros Hs. destruct e; step_inv Hs; crunch; since_trace;
    rewrite ?app_nil_r; reflexivity.
Qed.

Lemma effects_since_trans w w' w'' :
  trace w' = trace w ++ effects_since w w' ->
  trace w'' = trace w' ++ effects_since w' w'' ->
  effects_since w w'' = effects_since w w' ++ effects_since w' w''
  /\ trace w'' = trace w ++ effects_since w w''.
Proof.
  intros H1 H2.
  assert (H : effects_since w w'' = effects_since w w' ++ effects_since w' w'').
  { unfold effects_since at 1. rewrite H2, H1, <- app_assoc. apply drop_app_length. }
  split; [exact H|]. rewrite H, app_assoc, <- H1. exact H2.
Qed.

Lemma effects_since_refl w : effects_since w w = [].
Proof. unfold effects_since. apply drop_all. Qed.

Lemma run_trace_extends h es : forall w w',
  run h es w = Some w' -> trace w' = trace w ++ effects_since w w'.
Proof.
  induction es as [|e es IH]; intros w w' Hrun; cbn in Hrun.
  - injection Hrun as <-. by rewrite effects_since_refl, app_nil_r.
  - destruct (step h e w) as [w1|] eqn:Hs; [|discriminate].
    apply (effects_since_trans w w1 w').
    + eapply step_trace_extends; eassumption.
    + by apply IH.
Qed.

Lemma run_effects_cons h e es w w1 w' :
  step h e w = Some w1 -> run h es w1 = Some w' ->
  effects_since w w' = effects_since w w1 ++ effects_since w1 w'.
Proof.
  intros Hs Hrun. apply effects_since_trans.
  - eapply step_trace_extends; eassumption.
  - eapply run_trace_extends; eassumption.
Qed.

Lemma step_connection_listeners h e w w' :
  step h e w = Some w' ->
  connectionListeners (mgr w')
  = match e with
    | Call_addConnectionListener cb => set_add cb (connectionListeners (mgr w))
    | Call_removeConnectionListener cb => set_delete cb (connectionListeners (mgr w))
    | _ => connectionListeners (mgr w)
    end.
Proof. intros Hs. destruct e; step_inv Hs; crunch; reflexivity. Qed.

Lemma step_message_listeners h e w w' :
  step h e w = Some w' ->
  messageListeners (mgr w')
  = match e with
    | Call_addMessageListener cb => set_add cb (messageListeners (mgr w))
    | Call_removeMessageListener cb => set_delete cb (messageListeners (mgr w))
    | _ => messageListeners (mgr w)
    end.
Proof. intros Hs. destruct e; step_inv Hs; crunch; reflexivity. Qed.

Lemma not_in_set_delete (cb : nat) l : cb ∉ set_delete cb l.
Proof.
  unfold set_delete. intros H.
  apply (list_elem_of_filter (fun x => x <> cb)) in H. destruct H as [H _]. by apply H.
Qed.

Lemma not_in_set_ops (cb c : nat) l :
  cb ∉ l -> (cb ∉ set_delete c l) /\ (c <> cb -> cb ∉ set_add c l).
Proof.
  intros Hn. split.
  - unfold set_delete. intros H.
    apply (list_elem_of_filter (fun x => x <> c)) in H. destruct H as [_ H]. contradiction.
  - intros Hne. unfold set_add. destruct (decide (c ∈ l)); [exact Hn|].
    intros H. apply elem_of_app in H. destruct H as [H|H]; [contradiction|].
    apply list_elem_of_singleton in H. congruence.
Qed.

Lemma not_in_map_fst {B} (cb : nat) (b : B) (l : list nat) :
  cb ∉ l -> forall st, (cb, st) ∉ map (fun c => (c, b)) l.
Proof.
  intros Hn st H. apply list_elem_of_In, in_map_iff in H.
  destruct H as [c [[= -> _] Hc]]. apply Hn. by apply list_elem_of_In.
Qed.

Lemma silent_unless_added h cb es : forall w w',
  run h es w = Some w' ->
  cb ∉ connectionListeners (mgr w) ->
  ~ In (Call_addConnectionListener cb) es ->
  forall st, (cb, st) ∉ notified_states (effects_since w w').
Proof.
  induction es as [|e es IH]; intros w w' Hrun Hcb Hadd st; cbn in Hrun.
  - injection Hrun as <-. rewrite effects_since_refl. apply not_elem_of_nil.
  - destruct (step h e w) as [w1|] eqn:Hs; [|discriminate].
    rewrite (run_effects_cons _ _ _ _ _ _ Hs Hrun), notified_states_app.
    intros H. apply elem_of_app in H. destruct H as [H|H].
    + rewrite (step_notified _ _ _ _ Hs) in H.
      destruct (announced e); [|by apply elem_of_nil in H].
      by apply (not_in_map_fst cb s _ Hcb st).
    + revert H. apply (IH w1 w' Hrun).
      * rewrite (step_connection_listeners _ _ _ _ Hs).
        destruct e; try exact Hcb.
        -- apply not_in_set_ops; [exact Hcb|]. intros ->. apply Hadd. by left.
        -- by apply not_in_set_ops.
      * intros Hin. apply Hadd. by right.
Qed.

Lemma unheard_unless_added h cb es : forall w w',
  run h es w = Some w' ->
  cb ∉ messageListeners (mgr w) ->
  ~ In (Call_addMessageListener cb) es ->
  forall data, (cb, data) ∉ message_deliveries (effects_since w w').
Proof.
  induction es as [|e es IH]; intros w w' Hrun Hcb Hadd data; cbn in Hrun.
  - injection Hrun as <-. rewrite effects_since_refl. apply not_elem_of_nil.
  - destruct (step h e w) as [w1|] eqn:Hs; [|discriminate].
    rewrite (run_effects_cons _ _ _ _ _ _ Hs Hrun), message_deliveries_app.
    intros H. apply elem_of_app in H. destruct H as [H|H].
    + rewrite (step_delivered _ _ _ _ Hs) in H.
      destruct e; try (by apply elem_of_nil in H).
      destruct (JSON_parse h text); [|by apply elem_of_nil in H].
      by apply (not_in_map_fst cb j _ Hcb data).
    + revert H. apply (IH w1 w' Hrun).
      * rewrite (step_message_listeners _ _ _ _ Hs).
        destruct e; try exact Hcb.
        -- apply not_in_set_ops; [exact Hcb|]. intros ->. apply Hadd. by left.
        -- by apply not_in_set_ops.
      * intros Hin. apply Hadd. by right.
Qed.

(** X4. Once [removeConnectionListener(cb)] has run, [cb] receives no
    connection notification for as long as it is not added again,
    whatever events follow. *)
Theorem removed_connection_listener_silent h cb es w w' :
  run h (Call_removeConnectionListener cb :: es) w = Some w' ->
  ~ In (Call_addConnectionListener cb) es ->
  forall st, (cb, st) ∉ notified_states (effects_since w w').
Proof.
  intros Hrun Hadd st. cbn in Hrun. intros Hin.
  apply (silent_unless_added h cb es _ w' Hrun (not_in_set_delete cb _) Hadd st).
  unfold effects_since in *. exact Hin.
Qed.

Lemma removed_connection_listener_silent_witness :
  let es := [Ws_close 0%nat 1006 EmptyString; Tick 1000; Timer_fire 3; Ws_open 1%nat] in
  let w := after up_and_open in
  let w' := after (up_and_open ++ Call_removeConnectionListener 7%nat :: es) in
  run sample_host (Call_removeConnectionListener 7%nat :: es) w = Some w'
  /\ ~ In (Call_addConnectionListener 7%nat) es
  /\ (forall st, (7%nat, st) ∉ notified_states (effects_since w w')).
Proof.
  intros es w w'.
  assert (H1 : run sample_host (Call_removeConnectionListener 7%nat :: es) w = Some w')
    by (vm_compute; reflexivity).
  assert (H2 : ~ In (Call_addConnectionListener 7%nat) es).
  { intros [E|[E|[E|[E|[]]]]]; discriminate E. }
  repeat apply conj; [exact H1 | exact H2 |].
  exact (removed_connection_listener_silent sample_host 7%nat es w w' H1 H2).
Defined.

(** X5. Once [removeMessageListener(cb)] has run, [cb] is handed no
    inbound message for as long as it is not added again. *)
Theorem removed_message_listener_unheard h cb es w w' :
  run h (Call_removeMessageListener cb :: es) w = Some w' ->
  ~ In (Call_addMessageListener cb) es ->
  forall data, (cb, data) ∉ message_deliveries (effects_since w w').
Proof.
  intros Hrun Hadd data. cbn in Hrun. intros Hin.
  apply (unheard_unless_added h cb es _ w' Hrun (not_in_set_delete cb _) Hadd data).
  unfold effects_since in *. exact Hin.
Qed.

Lemma removed_message_listener_unheard_witness :
  let es := [Ws_message 0%nat "UPDATE"; Ws_message 0%nat "PONG"] in
  let w := after up_and_open in
  let w' := after (up_and_open ++ Call_removeMessageListener 8%nat :: es) in
  run sample_host (Call_removeMessageListener 8%nat :: es) w = Some w'
  /\ ~ In (Call_addMessageListener 8%nat) es
  /\ (forall data, (8%nat, data) ∉ message_deliveries (effects_since w w')).
Proof.
  intros es w w'.
  assert (H1 : run sample_host (Call_removeMessageListener 8%nat :: es) w = Some w')
    by (vm_compute; reflexivity).
  assert (H2 : ~ In (Call_addMessageListener 8%nat) es).
  { intros [E|[E|[]]]; discriminate E. }
  repeat apply conj; [exact H1 | exact H2 |].
  exact (removed_message_listener_unheard sample_host 8%nat es w w' H1 H2).
Defined.

Lemma map_fst_pairs {B} (b : B) (l : list nat) : map fst (map (fun c => (c, b)) l) = l.
Proof. rewrite map_map. cbn. apply map_id. Qed.

(** X6. One event of the event loop notifies the connection listeners at
    most once each: an open announces "connected", a close "disconnected",
    an error "error", to every registered listener exactly once and in
    registration order, also when some of them throw; every other event
    (calls, messages, timers, time) notifies nobody. *)
Theorem connection_notifications h e w w' :
  reachable h w ->
  step h e w = Some w' ->
  notified_states (effects_since w w')
  = match announced e with
    | Some label => map (fun cb => (cb, label)) (connectionListeners (mgr w))
    | None => []
    end
  /\ (forall cb, cb ∈ connectionListeners (mgr w) -> is_Some (announced e) ->
        length (filter (fun c => c = cb)
                  (map fst (notified_states (effects_since w w')))) = 1%nat)
  /\ (forall cb, cb ∉ connectionListeners (mgr w) ->
        length (filter (fun c => c = cb)
                  (map fst (notified_states (effects_since w w')))) = 0%nat).
Proof.
  intros Hreach Hs.
  pose proof (connection_nodup _ (wf_listeners _ (reachable_wf _ _ Hreach))) as Hnd.
  pose proof (step_notified _ _ _ _ Hs) as Hn.
  repeat apply conj.
  - exact Hn.
  - intros cb Hcb [label Hl]. rewrite Hn, Hl, map_fst_pairs. by apply nodup_once.
  - intros cb Hcb. rewrite Hn. destruct (announced e).
    + rewrite map_fst_pairs. by apply absent_never.
    + reflexivity.
Qed.

Lemma connection_notifications_witness :
  let w := after (up_and_open ++ [Call_addConnectionListener 9%nat;
                                  Call_addConnectionListener 7%nat]) in
  let w' := after (up_and_open ++ [Call_addConnectionListener 9%nat;
                                   Call_addConnectionListener 7%nat;
                                   Ws_close 0%nat 1000 "bye"]) in
  reachable sample_host w
  /\ step sample_host (Ws_close 0%nat 1000 "bye") w = Some w'
  /\ notified_states (effects_since w w')
     = [(7%nat, "disconnected"); (9%nat, "disconnected")].
Proof.
  intros w w'.
  assert (H1 : reachable sample_host w).
  { exists (up_and_open ++ [Call_addConnectionListener 9%nat;
                            Call_addConnectionListener 7%nat]).
    vm_compute. reflexivity. }
  assert (H2 : step sample_host (Ws_close 0%nat 1000 "bye") w = Some w')
    by (vm_compute; reflexivity).
  repeat apply conj; [exact H1 | exact H2 |].
  exact (proj1 (connection_notifications sample_host _ w w' H1 H2)).
Defined.

(** ** What observers are told, and what the page shows *)

Lemma run_notified_labels h es : forall w w',
  run h es w = Some w' ->
  Forall (fun n => known_label (snd n)) (notified_states (effects_since w w')).
Proof.
  induction es as [|e es IH]; intros w w' Hrun; cbn in Hrun.
  - injection Hrun as <-. rewrite effects_since_refl. constructor.
  - destruct (step h e w) as [w1|] eqn:Hs; [|discriminate].
    rewrite (run_effects_cons _ _ _ _ _ _ Hs Hrun), notified_states_app.
    apply Forall_app. split; [|by apply IH].
    rewrite (step_notified _ _ _ _ Hs).
    destruct e; cbn; try constructor;
      apply Forall_forall; intros [c st] Hin;
      apply list_elem_of_In, in_map_iff in Hin; destruct Hin as [c' [Heq _]];
      inversion Heq; subst; unfold known_label; cbn; tauto.
Qed.

Lemma status_after_known cb ns : forall el0 el,
  Forall (fun n => known_label (snd n)) ns ->
  (el = el0 \/ In (textContent el) ["Connected"; "Disconnected"; "Connection Error"]) ->
  exists el', status_after cb ns (Some el) = Some el'
    /\ (el' = el0 \/ In (textContent el') ["Connected"; "Disconnected"; "Connection Error"]).
Proof.
  induction ns as [|[c st] ns IH]; intros el0 el Hall Hel; cbn.
  - by exists el.
  - apply Forall_cons in Hall. destruct Hall as [Hst Hall].
    destruct (Nat.eqb c cb); [|by apply IH].
    cbn. apply IH; [exact Hall|]. right.
    unfold known_label in Hst. cbn in Hst.
    destruct Hst as [->|[->| ->]]; cbn; tauto.
Qed.

(** X7. Over the whole life of a manager, connection listeners are only
    ever told "connected", "disconnected" or "error" (never "connecting").
    Hence the page's status element, driven by the application's listener
    [updateConnectionStatus], is either untouched or reads "Connected",
    "Disconnected" or "Connection Error": its "Connecting..." and "Unknown"
    branches are never taken. *)
Theorem status_display_never_unknown h w cb el :
  reachable h w ->
  Forall (fun n => known_label (snd n)) (notified_states (trace w))
  /\ exists el',
       status_after cb (notified_states (trace w)) (Some el) = Some el'
       /\ (el' = el
           \/ In (textContent el') ["Connected"; "Disconnected"; "Connection Error"]).
Proof.
  intros [es Hrun].
  assert (Hall : Forall (fun n => known_label (snd n)) (notified_states (trace w))).
  { exact (run_notified_labels h es _ _ Hrun). }
  split; [exact Hall|]. apply status_after_known; [exact Hall|by left].
Qed.

Lemma status_display_never_unknown_witness :
  let w := after stale_close in
  let el := {| textContent := "Connecting..."; className := "connection-status" |} in
  reachable sample_host w
  /\ exists el',
       status_after 7 (notified_states (trace w)) (Some el) = Some el'
       /\ (el' = el
           \/ In (textContent el') ["Connected"; "Disconnected"; "Connection Error"]).
Proof.
  intros w el.
  assert (H : reachable sample_host w) by (exists stale_close; vm_compute; reflexivity).
  split; [exact H|].
  exact (proj2 (status_display_never_unknown sample_host w 7%nat el H)).
Defined.

(** ** Transport events *)

Lemma promise_state_app k es1 es2 :
  promise_state k (es1 ++ es2)
  = match promise_state k es1 with
    | Some o => Some o
    | None => promise_state k es2
    end.
Proof.
  induction es1 as [|e es1 IH]; [reflexivity|].
  destruct e; cbn; rewrite ?IH; try reflexivity;
    destruct (sock =? k)%nat; reflexivity.
Qed.

Lemma promise_state_connection_calls k h state event l :
  promise_state k (connection_calls h state event l) = None.
Proof.
  unfold connection_calls. induction l as [|cb l IH]; [reflexivity|]. cbn.
  destruct (connection_listener_throws h cb state); cbn; exact IH.
Qed.

Lemma promise_state_message_calls k h data l :
  promise_state k (message_calls h data l) = None.
Proof.
  unfold message_calls. induction l as [|cb l IH]; [reflexivity|]. cbn.
  destruct (message_listener_throws h cb data); cbn; exact IH.
Qed.

Ltac read_promises :=
  rewrite ?promise_state_app, ?promise_state_connection_calls,
    ?promise_state_message_calls; cbn;
  rewrite ?promise_state_app, ?promise_state_connection_calls,
    ?promise_state_message_calls; cbn.

(** The promise calls of one step: an open event calls [resolve], an error
    event calls [reject], each of the connect that made the socket. *)
Lemma step_promise h e w w' k :
  step h e w = Some w' ->
  promise_state k (effects_since w w')
  = match e with
    | Ws_open j => if (j =? k)%nat then Some Fulfilled else None
    | Ws_error j => if (j =? k)%nat then Some Failed else None
    | _ => None
    end.
Proof.
  intros Hs. destruct e; step_inv Hs; crunch; since_trace; read_promises;
    try reflexivity.
  all: match goal with
       | H : (?a =? ?b)%nat = _ |- context [(?a =? ?b)%nat] => by rewrite H
       end.
Qed.

Lemma start_close_connecting code reason s :
  readyState (start_close code reason s) = CONNECTING -> readyState s = CONNECTING.
Proof.
  unfold start_close. destruct (_ || _); [auto|]. cbn. discriminate.
Qed.

(** How one step changes the socket objects: it leaves them alone,
    constructs one, or updates one in place; an update never puts a socket
    back into CONNECTING, and the socket of an open or error event has left
    that state. *)
Lemma step_sockets h e w w' :
  step h e w = Some w' ->
  (sockets w' = sockets w /\ settled_by e = None)
  \/ (exists u, sockets w' = sockets w ++ [fresh_socket u] /\ settled_by e = None)
  \/ (exists f j, sockets w' = alter f j (sockets w)
        /\ (forall s, readyState (f s) = CONNECTING -> readyState s = CONNECTING)
        /\ (settled_by e = None
            \/ settled_by e = Some j /\ forall s, readyState (f s) <> CONNECTING)).
Proof.
  intros Hs. destruct e; step_inv Hs; crunch.
  all: try (left; split; reflexivity).
  all: try (right; left; eexists; split; reflexivity).
  all: right; right; eexists _, _; (split; [reflexivity|]).
  all: split;
    [ intros s0; first [apply start_close_connecting | cbn; intros Hc; first [exact Hc | vm_compute in Hc; discriminate Hc]]
    | first [left; reflexivity
            | right; split; [reflexivity | intros s0; cbn; discriminate]] ].
Qed.


Lemma step_promises_ok h e w w' :
  promises_ok w -> step h e w = Some w' -> promises_ok w'.
Proof.
  intros Hok Hs k. specialize (Hok k).
  rewrite (step_trace_extends _ _ _ _ Hs), promise_state_app,
    (step_promise _ _ _ _ k Hs).
  assert (Hnone : settled_by e = None ->
            match e with
            | Ws_open j => if (j =? k)%nat then Some Fulfilled else None
            | Ws_error j => if (j =? k)%nat then Some Failed else None
            | _ => None
            end = None) by (destruct e; cbn; congruence).
  assert (Hother : forall j, settled_by e = Some j -> j <> k ->
            match e with
            | Ws_open j => if (j =? k)%nat then Some Fulfilled else None
            | Ws_error j => if (j =? k)%nat then Some Failed else None
            | _ => None
            end = None).
  { intros j Hj Hne. destruct e; cbn in *; try congruence;
      injection Hj as ->; by apply Nat.eqb_neq in Hne as ->. }
  destruct (step_sockets _ _ _ _ Hs)
    as [[-> He]|[(u & -> & He)|(f & j & -> & Hback & He)]].
  - rewrite (Hnone He). destruct (sockets w !! k), (promise_state k (trace w)); auto.
  - rewrite (Hnone He).
    destruct (sockets w !! k) as [s|] eqn:Hk.
    + rewrite lookup_app_l by (eapply lookup_lt_Some; exact Hk). rewrite Hk.
      intros Hc. by rewrite (Hok Hc).
    + rewrite Hok. by destruct ((sockets w ++ _) !! k).
  - rewrite list_lookup_alter. case_decide as Hjk.
    + subst j. destruct (sockets w !! k) as [s|] eqn:Hk; cbn.
      * intros Hc. destruct He as [He|[He Hnot]]; [|by destruct (Hnot s)].
        by rewrite (Hok (Hback _ Hc)), (Hnone He).
      * rewrite Hok. destruct He as [He|[He _]]; [by apply Hnone|].
        exfalso. clear -Hs He Hk. destruct e; try discriminate He;
          injection He as ->; cbn in Hs; rewrite Hk in Hs; discriminate Hs.
    + assert (Hq : match e with
            | Ws_open j => if (j =? k)%nat then Some Fulfilled else None
            | Ws_error j => if (j =? k)%nat then Some Failed else None
            | _ => None
            end = None).
      { destruct He as [He|[He _]]; [by apply Hnone|by apply (Hother j)]. }
      rewrite Hq. destruct (sockets w !! k), (promise_state k (trace w)); auto.
Qed.

Lemma reachable_promises_ok h w : reachable h w -> promises_ok w.
Proof.
  intros [es Hrun].
  assert (Hgen : forall v, promises_ok v -> run h es v = Some w -> promises_ok w).
  { clear Hrun. induction es as [|e es IH]; intros v Hv Hrun; cbn in Hrun.
    - by injection Hrun as <-.
    - destruct (step h e v) as [v1|] eqn:Hs; [|discriminate].
      apply (IH v1); [|exact Hrun]. eapply step_promises_ok; eassumption. }
  apply (Hgen initial_world); [|exact Hrun]. intros k. by destruct k.
Qed.

(** X8. An error event does not start any recovery by itself: it clears
    [isConnecting], tells every connection listener "error" and calls
    [reject] on the promise of the connect that made the socket; no timer
    is armed or cancelled, and the failure counter, the held socket and the
    timer handles are as before.  The call rejects the promise when it was
    still pending, as it is for a socket that was still connecting, and has
    no effect on a promise settled before (the socket had opened); no other
    promise changes.  (Reconnecting is left to the close event.) *)
Theorem error_event_only_notifies h w k w' :
  step h (Ws_error k) w = Some w' ->
  timers w' = timers w
  /\ next_timer w' = next_timer w
  /\ reconnectAttempts (mgr w') = reconnectAttempts (mgr w)
  /\ ws (mgr w') = ws (mgr w)
  /\ isConnecting (mgr w') = false
  /\ heartbeatInterval (mgr w') = heartbeatInterval (mgr w)
  /\ heartbeatTimeout (mgr w') = heartbeatTimeout (mgr w)
  /\ reconnectTimeout (mgr w') = reconnectTimeout (mgr w)
  /\ effects_since w w'
     = Console ErrWebSocket
         :: connection_calls h "error" ErrorEvent (connectionListeners (mgr w))
         ++ [PromiseReject k]
  /\ promise_state k (trace w')
     = match promise_state k (trace w) with
       | Some o => Some o
       | None => Some Failed
       end
  /\ (forall j, j <> k -> promise_state j (trace w') = promise_state j (trace w))
  /\ (reachable h w -> readyState_of k w = CONNECTING ->
        promise_state k (trace w) = None /\ promise_state k (trace w') = Some Failed).
Proof.
  intros Hs.
  pose proof (step_trace_extends _ _ _ _ Hs) as Htr.
  assert (Hp : forall j, promise_state j (trace w')
                 = match promise_state j (trace w) with
                   | Some o => Some o
                   | None => if (k =? j)%nat then Some Failed else None
                   end).
  { intros j. by rewrite Htr, promise_state_app, (step_promise _ _ _ _ j Hs). }
  assert (Hk : promise_state k (trace w')
               = match promise_state k (trace w) with
                 | Some o => Some o
                 | None => Some Failed
                 end) by (by rewrite Hp, Nat.eqb_refl).
  assert (Hj : forall j, j <> k ->
                 promise_state j (trace w') = promise_state j (trace w)).
  { intros j Hne. rewrite Hp. assert ((k =? j)%nat = false) as ->
      by (apply Nat.eqb_neq; congruence). by destruct (promise_state j (trace w)). }
  assert (Hc : reachable h w -> readyState_of k w = CONNECTING ->
               promise_state k (trace w) = None /\ promise_state k (trace w') = Some Failed).
  { intros Hreach Hrs. pose proof (reachable_promises_ok _ _ Hreach k) as Hok.
    unfold readyState_of in Hrs. destruct (sockets w !! k) as [s|]; [|discriminate Hrs].
    specialize (Hok Hrs). split; [exact Hok|]. by rewrite Hk, Hok. }
  clear Htr Hp. step_inv Hs. revert Hk Hj Hc. rewrite onerror_eq. cbn. intros Hk Hj Hc.
  refine (conj eq_refl (conj eq_refl (conj eq_refl (conj eq_refl (conj eq_refl
    (conj eq_refl (conj eq_refl (conj eq_refl (conj _ (conj Hk (conj Hj Hc))))))))))).
  unfold effects_since. cbn. by rewrite drop_app_length.
Qed.

Lemma error_event_only_notifies_witness :
  let connecting := after [Call_addConnectionListener 7%nat; Call_connect None] in
  let failed := after [Call_addConnectionListener 7%nat; Call_connect None;
                       Ws_error 0%nat] in
  let opened := after up_and_open in
  let broken := after (up_and_open ++ [Ws_error 0%nat]) in
  (step sample_host (Ws_error 0%nat) connecting = Some failed
   /\ timers failed = timers connecting
   /\ promise_state 0 (trace connecting) = None
   /\ promise_state 0 (trace failed) = Some Failed)
  /\ (step sample_host (Ws_error 0%nat) opened = Some broken
      /\ promise_state 0 (trace opened) = Some Fulfilled
      /\ promise_state 0 (trace broken) = Some Fulfilled).
Proof.
  intros connecting failed opened broken.
  assert (H1 : step sample_host (Ws_error 0%nat) connecting = Some failed)
    by (vm_compute; reflexivity).
  assert (H2 : step sample_host (Ws_error 0%nat) opened = Some broken)
    by (vm_compute; reflexivity).
  assert (R : reachable sample_host connecting)
    by (exists [Call_addConnectionListener 7%nat; Call_connect None];
        vm_compute; reflexivity).
  pose proof (error_event_only_notifies sample_host connecting 0%nat failed H1) as A.
  pose proof (error_event_only_notifies sample_host opened 0%nat broken H2) as B.
  split.
  - refine (conj H1 (conj (proj1 A) _)).
    apply (proj2 (proj2 (proj2 (proj2 (proj2 (proj2 (proj2 (proj2 (proj2
             (proj2 (proj2 A)))))))))) R).
    vm_compute. reflexivity.
  - refine (conj H2 (conj _ _)); [vm_compute; reflexivity|].
    rewrite (proj1 (proj2 (proj2 (proj2 (proj2 (proj2 (proj2 (proj2 (proj2 (proj2 B)))))))))).
    vm_compute. reflexivity.
Defined.

(** X9. An open event resets the failure counter to 0, clears
    [isConnecting], leaves exactly one ping interval (30 s) and one
    liveness timeout (35 s) pending, tells every connection listener
    "connected" and then resolves the promise of the connect that made the
    socket.  Reconnect timers that were pending stay pending. *)
Theorem open_event_resets_and_arms h w k w' :
  reachable h w ->
  step h (Ws_open k) w = Some w' ->
  reconnectAttempts (mgr w') = 0%nat
  /\ isConnecting (mgr w') = false
  /\ pending HeartbeatPing (timers w')
     = [interval (next_timer w) HeartbeatPing 30000 (clock w)]
  /\ pending HeartbeatTimeout (timers w')
     = [one_shot (Pos.succ (next_timer w)) HeartbeatTimeout 35000 (clock w)]
  /\ pending Reconnect (timers w') = pending Reconnect (timers w)
  /\ reconnectTimeout (mgr w') = reconnectTimeout (mgr w)
  /\ effects_since w w'
     = Console LogConnected
         :: connection_calls h "connected" OpenEvent (connectionListeners (mgr w))
         ++ [PromiseResolve k]
  /\ readyState_of k w' = OPEN.
Proof.
  intros Hreach Hs.
  destruct (heartbeat_armed_on_open h w k w' Hreach Hs) as (Hp & Ht & _ & _).
  pose proof (wf_timers _ (reachable_wf _ _ Hreach)) as Hok.
  refine (conj _ (conj _ (conj Hp (conj Ht _)))); step_inv Hs; rewrite onopen_eq; cbn;
    try reflexivity.
  repeat apply conj; try reflexivity.
  - rewrite pending_app, pending_stopped by trivial. cbn. apply app_nil_r.
  - unfold effects_since. cbn. by rewrite drop_app_length.
  - unfold readyState_of. cbn. rewrite list_lookup_alter_eq, Heqo. reflexivity.
Qed.

Lemma open_event_resets_and_arms_witness :
  let es := [Call_connect None; Ws_error 0%nat; Ws_close 0%nat 1006 EmptyString;
             Tick 1000; Timer_fire 1] in
  let w := after es in
  let w' := after (es ++ [Ws_open 1%nat]) in
  reachable sample_host w
  /\ step sample_host (Ws_open 1%nat) w = Some w'
  /\ reconnectAttempts (mgr w) = 1%nat
  /\ reconnectAttempts (mgr w') = 0%nat.
Proof.
  intros es w w'.
  assert (H1 : reachable sample_host w) by (exists es; vm_compute; reflexivity).
  assert (H2 : step sample_host (Ws_open 1%nat) w = Some w') by (vm_compute; reflexivity).
  repeat apply conj; [exact H1 | exact H2 | vm_compute; reflexivity |].
  exact (proj1 (open_event_resets_and_arms sample_host w 1%nat w' H1 H2)).
Defined.

(** ** The timer table *)

Lemma backoff_range n : 1000 <= backoff n <= 30000.
Proof.
  unfold backoff.
  assert (1 <= 2 ^ Z.of_nat n) by (apply (Z.pow_le_mono_r 2 0); lia). lia.
Qed.

Ltac members :=
  unfold one_shot, interval in *;
  repeat match goal with
  | H : _ ∈ _ ++ _ |- _ => apply elem_of_app in H; destruct H as [H|H]
  | H : _ ∈ cancel_opt _ _ |- _ => apply elem_of_cancel_opt in H; destruct H as [_ H]
  | H : _ ∈ cancel _ _ |- _ => apply elem_of_cancel in H; destruct H as [_ H]
  | H : _ ∈ [_] |- _ => apply list_elem_of_singleton in H; subst
  | H : _ ∈ [_; _] |- _ => apply elem_of_cons in H; destruct H as [H|H]; [subst|]
  | H : _ ∈ [] |- _ => apply elem_of_nil in H; destruct H
  | H : _ ∈ _ <$> _ |- _ =>
      apply list_elem_of_fmap in H; destruct H as (? & -> & H)
  end.

Lemma step_timer_shapes h e w w' :
  (forall t, t ∈ timers w -> timer_shape t) ->
  step h e w = Some w' ->
  forall t, t ∈ timers w' -> timer_shape t.
Proof.
  intros Hsh Hs. destruct e; step_inv Hs; crunch; intros x Hx; members;
    try (by apply Hsh);
    try (unfold timer_shape; cbn; first [split; reflexivity
                                        | split; [apply backoff_range|reflexivity]]).
  all: cbn; try (by apply Hsh).
  all: specialize (Hsh _ Hx); unfold timer_shape in *;
    try destruct (Pos.eqb _ _); cbn; exact Hsh.
Qed.

Lemma distinct_below_cancel_opt n o l :
  distinct_below n l -> distinct_below n (cancel_opt o l).
Proof.
  intros [Hnd Hlt]. split.
  - destruct o as [i|]; [|exact Hnd]. cbn. unfold cancel.
    eapply sublist_NoDup; [exact Hnd|]. apply fmap_sublist, sublist_filter.
  - intros t Ht. apply elem_of_cancel_opt in Ht. destruct Ht as [_ Ht]. by apply Hlt.
Qed.

Lemma distinct_below_cancel n i l :
  distinct_below n l -> distinct_below n (cancel i l).
Proof. apply (distinct_below_cancel_opt n (Some i)). Qed.

Lemma distinct_below_snoc n l t :
  distinct_below n l -> timer_id t = n -> distinct_below (Pos.succ n) (l ++ [t]).
Proof.
  intros [Hnd Hlt] Hid. split.
  - rewrite fmap_app. apply NoDup_app. split; [exact Hnd|]. split.
    + intros i Hi Hi'. cbn in Hi'. apply list_elem_of_singleton in Hi'. subst i.
      apply list_elem_of_fmap in Hi. destruct Hi as (x & Hx & Hin).
      specialize (Hlt _ Hin). lia.
    + cbn. apply NoDup_singleton.
  - intros x Hx. apply elem_of_app in Hx. destruct Hx as [Hx|Hx].
    + specialize (Hlt _ Hx). lia.
    + apply list_elem_of_singleton in Hx. subst x. lia.
Qed.

Lemma distinct_below_snoc2 n l t1 t2 :
  distinct_below n l -> timer_id t1 = n -> timer_id t2 = Pos.succ n ->
  distinct_below (Pos.succ (Pos.succ n)) (l ++ [t1; t2]).
Proof.
  intros Hd H1 H2. change (l ++ [t1; t2]) with (l ++ [t1] ++ [t2]).
  rewrite app_assoc. apply distinct_below_snoc; [|exact H2].
  by apply distinct_below_snoc.
Qed.

Lemma distinct_below_refire n l i :
  distinct_below n l ->
  distinct_below n
    ((fun x => if Pos.eqb (timer_id x) i
               then {| timer_id := timer_id x; task := task x; delay := delay x;
                       due := due x + delay x; repeating := repeating x |}
               else x) <$> l).
Proof.
  intros [Hnd Hlt]. split.
  - rewrite <- list_fmap_compose.
    erewrite (list_fmap_ext _ timer_id); [exact Hnd|].
    intros _ x _. cbn. by destruct (Pos.eqb _ _).
  - intros t Ht. apply list_elem_of_fmap in Ht. destruct Ht as (x & -> & Hx).
    specialize (Hlt _ Hx). by destruct (Pos.eqb _ _).
Qed.

Lemma step_distinct_below h e w w' :
  distinct_below (next_timer w) (timers w) ->
  step h e w = Some w' ->
  distinct_below (next_timer w') (timers w').
Proof.
  intros Hd Hs. destruct e; step_inv Hs; crunch; rewrite ?app_nil_r;
    repeat first
      [ exact Hd
      | apply distinct_below_snoc2; [|reflexivity|reflexivity]
      | apply distinct_below_snoc; [|reflexivity]
      | apply distinct_below_cancel_opt
      | apply distinct_below_cancel
      | apply distinct_below_refire ].
Qed.

Lemma reachable_timer_table h w :
  reachable h w ->
  (forall t, t ∈ timers w -> timer_shape t)
  /\ distinct_below (next_timer w) (timers w).
Proof.
  intros [es Hrun]. revert Hrun.
  assert (H0 : (forall t, t ∈ timers initial_world -> timer_shape t)
               /\ distinct_below (next_timer initial_world) (timers initial_world)).
  { split; [intros t Ht; by apply elem_of_nil in Ht|].
    split; [constructor|intros t Ht; by apply elem_of_nil in Ht]. }
  revert H0. generalize initial_world as v.
  induction es as [|e es IH]; intros v [Hsh Hd] Hrun; cbn in Hrun.
  - injection Hrun as <-. by split.
  - destruct (step h e v) as [v1|] eqn:Hs; [|discriminate].
    apply (IH v1); [|exact Hrun]. split.
    + eapply step_timer_shapes; eassumption.
    + eapply step_distinct_below; eassumption.
Qed.

Lemma at_most_one_with_handle (P : Timer -> Prop) `{forall x, Decision (P x)}
  (i : positive) (l : list Timer) :
  NoDup (timer_id <$> l) ->
  (forall x, x ∈ l -> P x -> timer_id x = i) ->
  (length (filter P l) <= 1)%nat.
Proof.
  induction l as [|x l IH]; intros Hnd Hown; [cbn; lia|].
  rewrite fmap_cons in Hnd. apply NoDup_cons in Hnd. destruct Hnd as [Hx Hnd].
  rewrite filter_cons. destruct (decide (P x)) as [Hp|Hp].
  - assert (Hnil : filter P l = []).
    { apply elem_of_nil_inv. intros y Hy.
      apply list_elem_of_filter in Hy. destruct Hy as [Hy1 Hy2].
      apply Hx. apply list_elem_of_fmap. exists y. split; [|exact Hy2].
      rewrite (Hown x), (Hown y); auto using list_elem_of_here, list_elem_of_further. }
    rewrite Hnil. cbn. lia.
  - apply IH; [exact Hnd|]. intros y Hy. apply Hown. by apply list_elem_of_further.
Qed.

(** X10. Heartbeat timers never stack: on every reachable world at most
    one ping interval and at most one liveness timeout are pending, and a
    pending one carries the handle stored in the manager's field. *)
Theorem heartbeat_never_stacks h w :
  reachable h w ->
  (length (pending HeartbeatPing (timers w)) <= 1)%nat
  /\ (length (pending HeartbeatTimeout (timers w)) <= 1)%nat
  /\ (forall t, t ∈ pending HeartbeatPing (timers w) ->
        heartbeatInterval (mgr w) = Some (timer_id t))
  /\ (forall t, t ∈ pending HeartbeatTimeout (timers w) ->
        heartbeatTimeout (mgr w) = Some (timer_id t)).
Proof.
  intros Hreach.
  pose proof (wf_timers _ (reachable_wf _ _ Hreach)) as Hok.
  destruct (reachable_timer_table _ _ Hreach) as [_ [Hnd _]].
  assert (Hping : forall t, t ∈ pending HeartbeatPing (timers w) ->
                    heartbeatInterval (mgr w) = Some (timer_id t)).
  { intros t Ht. apply (list_elem_of_filter (fun x => task x = HeartbeatPing)) in Ht.
    destruct Ht as [E Ht]. exact (ping_owned _ Hok t Ht E). }
  assert (Htime : forall t, t ∈ pending HeartbeatTimeout (timers w) ->
                    heartbeatTimeout (mgr w) = Some (timer_id t)).
  { intros t Ht. apply (list_elem_of_filter (fun x => task x = HeartbeatTimeout)) in Ht.
    destruct Ht as [E Ht]. exact (timeout_owned _ Hok t Ht E). }
  repeat apply conj; try assumption.
  - destruct (heartbeatInterval (mgr w)) as [i|] eqn:Hi.
    + apply (at_most_one_with_handle _ i); [exact Hnd|].
      intros x Hx E. pose proof (ping_owned _ Hok x Hx E). congruence.
    + assert (pending HeartbeatPing (timers w) = []) as ->; [|cbn; lia].
      apply elem_of_nil_inv. intros x Hx. specialize (Hping x Hx). discriminate.
  - destruct (heartbeatTimeout (mgr w)) as [i|] eqn:Hi.
    + apply (at_most_one_with_handle _ i); [exact Hnd|].
      intros x Hx E. pose proof (timeout_owned _ Hok x Hx E). congruence.
    + assert (pending HeartbeatTimeout (timers w) = []) as ->; [|cbn; lia].
      apply elem_of_nil_inv. intros x Hx. specialize (Htime x Hx). discriminate.
Qed.

Lemma heartbeat_never_stacks_witness :
  let w := after (up_and_open ++ [Ws_message 0%nat "PONG"; Ws_message 0%nat "PONG"]) in
  reachable sample_host w
  /\ (length (pending HeartbeatTimeout (timers w)) <= 1)%nat
  /\ pending HeartbeatTimeout (timers w) = [one_shot 4 HeartbeatTimeout 35000 0].
Proof.
  intros w.
  assert (H : reachable sample_host w).
  { exists (up_and_open ++ [Ws_message 0%nat "PONG"; Ws_message 0%nat "PONG"]).
    vm_compute. reflexivity. }
  repeat apply conj; [exact H | | vm_compute; reflexivity].
  exact (proj1 (proj2 (heartbeat_never_stacks sample_host w H))).
Defined.

(** X11. Every timer the manager has pending is one of three kinds: the
    repeating 30000 ms ping, the one-shot 35000 ms liveness timeout, or a
    one-shot reconnect whose delay lies between 1000 and 30000 ms; timer
    handles in the table are pairwise distinct. *)
Theorem pending_timers_well_formed h w :
  reachable h w ->
  (forall t, t ∈ timers w -> timer_shape t)
  /\ NoDup (timer_id <$> timers w)
  /\ (forall t, t ∈ timers w -> (timer_id t < next_timer w)%positive).
Proof.
  intros Hreach. destruct (reachable_timer_table _ _ Hreach) as [Hsh [Hnd Hlt]].
  repeat apply conj; assumption.
Qed.

Lemma pending_timers_well_formed_witness :
  let w := after (up_and_open ++ [Ws_closing 0%nat; Ws_close 0%nat 1001 "going away"]) in
  reachable sample_host w
  /\ (forall t, t ∈ timers w -> timer_shape t).
Proof.
  intros w.
  assert (H : reachable sample_host w).
  { exists (up_and_open ++ [Ws_closing 0%nat; Ws_close 0%nat 1001 "going away"]).
    vm_compute. reflexivity. }
  split; [exact H|].
  exact (proj1 (pending_timers_well_formed sample_host w H)).
Defined.

(** ** Liveness *)

Lemma pending_timeout_cancelled w l :
  timers_ok w -> (forall x, x ∈ l -> x ∈ timers w) ->
  pending HeartbeatTimeout (cancel_opt (heartbeatTimeout (mgr w)) l) = [].
Proof.
  intros Hok Hl. unfold pending. apply elem_of_nil_inv. intros x Hx.
  apply (list_elem_of_filter (fun y => task y = HeartbeatTimeout)) in Hx.
  destruct Hx as [E Hx]. apply elem_of_cancel_opt in Hx. destruct Hx as [Hne Hx].
  apply Hne. exact (timeout_owned _ Hok x (Hl x Hx) E).
Qed.

Lemma pending_other_kept t w :
  timers_ok w -> t <> HeartbeatTimeout ->
  pending t (cancel_opt (heartbeatTimeout (mgr w)) (timers w)) = pending t (timers w).
Proof.
  intros Hok Ht. apply pending_cancel_opt. intros x Hx E.
  rewrite (timeout_handle_timeout _ Hok x Hx E). congruence.
Qed.

(** X12. An inbound frame that parses to a value whose [type] is "pong"
    re-arms the liveness timeout: afterwards exactly one timeout is
    pending, due 35000 ms after the frame arrived.  A frame of any other
    type leaves the timers and the manager's fields alone.  Either way the
    ping interval and pending reconnects are untouched and every message
    listener is handed the parsed frame. *)
Theorem pong_rearms_liveness_timeout h w k text data t w' :
  reachable h w ->
  step h (Ws_message k text) w = Some w' ->
  JSON_parse h text = Some data ->
  get_type data = Some t ->
  (is_pong t = true ->
     pending HeartbeatTimeout (timers w')
     = [one_shot (next_timer w) HeartbeatTimeout 35000 (clock w)]
     /\ heartbeatTimeout (mgr w') = Some (next_timer w))
  /\ (is_pong t = false -> timers w' = timers w /\ mgr w' = mgr w)
  /\ pending HeartbeatPing (timers w') = pending HeartbeatPing (timers w)
  /\ pending Reconnect (timers w') = pending Reconnect (timers w)
  /\ message_deliveries (effects_since w w')
     = map (fun cb => (cb, data)) (messageListeners (mgr w)).
Proof.
  intros Hreach Hs Hparse Htype.
  pose proof (wf_timers _ (reachable_wf _ _ Hreach)) as Hok.
  pose proof (step_delivered _ _ _ _ Hs) as Hdel. cbn in Hdel. rewrite Hparse in Hdel.
  step_inv Hs. unfold onmessage in *. rewrite exec_handleMessage in *.
  rewrite Hparse, Htype in *. cbn in *.
  destruct (is_pong t) eqn:Hp.
  - unfold exec in *. rewrite resetHeartbeatTimeout_eq in *. cbn in *.
    repeat apply conj; try (intros; discriminate); try exact Hdel.
    + intros _. split; [|reflexivity].
      rewrite pending_app, pending_timeout_cancelled by auto. reflexivity.
    + rewrite pending_app, pending_other_kept by (auto; discriminate).
      cbn. apply app_nil_r.
    + rewrite pending_app, pending_other_kept by (auto; discriminate).
      cbn. apply app_nil_r.
  - repeat apply conj; try (intros; discriminate); try exact Hdel; try reflexivity.
    intros _. split; reflexivity.
Qed.

Lemma pong_rearms_liveness_timeout_witness :
  let w := after (up_and_open ++ [Tick 30000; Timer_fire 1; Tick 40]) in
  let w' := after (up_and_open ++ [Tick 30000; Timer_fire 1; Tick 40;
                                   Ws_message 0%nat "PONG"]) in
  reachable sample_host w
  /\ step sample_host (Ws_message 0%nat "PONG") w = Some w'
  /\ JSON_parse sample_host "PONG" = Some (JObj [("type", JStr "pong")])
  /\ get_type (JObj [("type", JStr "pong")]) = Some (Value (JStr "pong"))
  /\ pending HeartbeatTimeout (timers w') = [one_shot 3 HeartbeatTimeout 35000 30040].
Proof.
  intros w w'.
  assert (H1 : reachable sample_host w).
  { exists (up_and_open ++ [Tick 30000; Timer_fire 1; Tick 40]). vm_compute. reflexivity. }
  assert (H2 : step sample_host (Ws_message 0%nat "PONG") w = Some w')
    by (vm_compute; reflexivity).
  assert (H3 : JSON_parse sample_host "PONG" = Some (JObj [("type", JStr "pong")]))
    by reflexivity.
  assert (H4 : get_type (JObj [("type", JStr "pong")]) = Some (Value (JStr "pong")))
    by reflexivity.
  repeat apply conj; try assumption.
  exact (proj1 (proj1 (pong_rearms_liveness_timeout sample_host w 0%nat "PONG" _ _ w'
                         H1 H2 H3 H4) eq_refl)).
Defined.

(** X13. When the liveness timeout fires, the manager closes the socket it
    holds with the clean code 1000 and drops it, keeps the failure counter,
    notifies no listener, and leaves no heartbeat timer pending.  With
    retries left it arms one reconnect at the backoff delay of the current
    counter (replacing the reconnect timer it held); with none left it only
    logs the console error. *)
Theorem liveness_timeout_fires h w :
  reachable h w ->
  let w' := exec (run_task h HeartbeatTimeout) w in
  let n := reconnectAttempts (mgr w) in
  let kept := cancel_opt (heartbeatTimeout (mgr w))
                (cancel_opt (heartbeatInterval (mgr w))
                   (cancel_opt (reconnectTimeout (mgr w)) (timers w))) in
  ws (mgr w') = None
  /\ getState w' = "disconnected"
  /\ reconnectAttempts (mgr w') = n
  /\ notified_states (effects_since w w') = []
  /\ pending HeartbeatPing (timers w') = []
  /\ pending HeartbeatTimeout (timers w') = []
  /\ (forall k s, ws (mgr w) = Some k -> sockets w !! k = Some s ->
        readyState s = OPEN ->
        exists s', sockets w' !! k = Some s' /\ readyState s' = CLOSING
                   /\ close_requested s' = Some (1000, "Client disconnect"))
  /\ ((n < maxReconnectAttempts)%nat ->
        timers w' = kept ++ [one_shot (next_timer w) Reconnect (backoff n) (clock w)]
        /\ reconnectTimeout (mgr w') = Some (next_timer w))
  /\ ((maxReconnectAttempts <= n)%nat ->
        timers w' = kept /\ reconnectTimeout (mgr w') = None
        /\ effects_since w w' = [Console WarnHeartbeatTimeout; Console ErrMaxReconnect]).
Proof.
  intros Hreach w' n kept. subst w'.
  pose proof (wf_timers _ (reachable_wf _ _ Hreach)) as Hok.
  assert (Hkept : forall tk, tk <> Reconnect -> pending tk kept = []).
  { intros tk Htk. unfold pending. apply elem_of_nil_inv. intros x Hx.
    apply (list_elem_of_filter (fun y => task y = tk)) in Hx. destruct Hx as [E Hx].
    subst kept. timers_tac. destruct tk; [| |congruence].
    - pose proof (ping_owned _ Hok x Hx E). congruence.
    - pose proof (timeout_owned _ Hok x Hx E). congruence. }
  rewrite run_task_eq. unfold exec. rewrite disconnect_eq. cbn.
  rewrite scheduleReconnect_eq. cbn. fold n. fold kept.
  destruct (maxReconnectAttempts <=? n)%nat eqn:Hmax.
  - apply Nat.leb_le in Hmax. cbn.
    repeat apply conj; try reflexivity; try (apply Hkept; discriminate).
    + unfold effects_since. cbn. rewrite <- app_assoc, drop_app_length. reflexivity.
    + intros k s Hk Hs Hopen. rewrite Hk, list_lookup_alter_eq, Hs. cbn.
      eexists. split; [reflexivity|]. unfold start_close. rewrite Hopen. cbn.
      split; reflexivity.
    + intros Hlt. lia.
    + intros _. repeat apply conj; try reflexivity.
      unfold effects_since. cbn. rewrite <- app_assoc, drop_app_length. reflexivity.
  - apply Nat.leb_gt in Hmax. cbn.
    repeat apply conj; try reflexivity.
    + unfold effects_since. cbn. rewrite <- app_assoc, drop_app_length. reflexivity.
    + rewrite pending_app, Hkept by discriminate. reflexivity.
    + rewrite pending_app, Hkept by discriminate. reflexivity.
    + intros k s Hk Hs Hopen. rewrite Hk, list_lookup_alter_eq, Hs. cbn.
      eexists. split; [reflexivity|]. unfold start_close. rewrite Hopen. cbn.
      split; reflexivity.
    + intros _. split; reflexivity.
    + intros Hge. lia.
Qed.

Lemma liveness_timeout_fires_witness :
  let w := after (up_and_open ++ [Tick 35000]) in
  reachable sample_host w
  /\ getState (exec (run_task sample_host HeartbeatTimeout) w) = "disconnected"
  /\ timers (exec (run_task sample_host HeartbeatTimeout) w)
     = [one_shot 3 Reconnect 1000 35000].
Proof.
  intros w.
  assert (H : reachable sample_host w)
    by (exists (up_and_open ++ [Tick 35000]); vm_compute; reflexivity).
  repeat apply conj; [exact H | | vm_compute; reflexivity].
  exact (proj1 (proj2 (liveness_timeout_fires sample_host w H))).
Defined.

(** ** Outgoing frames *)

Lemma start_close_keeps code reason s :
  url (start_close code reason s) = url s /\ sent (start_close code reason s) = sent s.
Proof. unfold start_close. destruct (_ || _); split; reflexivity. Qed.

Lemma step_socket_kept h e w w' k s :
  step h e w = Some w' ->
  sockets w !! k = Some s ->
  exists s', sockets w' !! k = Some s'
    /\ url s' = url s
    /\ (sent s' = sent s
        \/ (exists text, sent s' = sent s ++ [text])
           /\ ws (mgr w) = Some k /\ readyState s = OPEN).
Proof.
  intros Hs Hk. destruct e; step_inv Hs; crunch.
  all: try (exists s; split; [exact Hk|]; split; [reflexivity|by left]).
  all: try (rewrite lookup_app_l by (eapply lookup_lt_Some; exact Hk);
            exists s; split; [exact Hk|]; split; [reflexivity|by left]).
  all: rewrite list_lookup_alter; case_decide; subst;
    try (exists s; split; [exact Hk|]; split; [reflexivity|by left]);
    rewrite Hk; cbn; eexists; (split; [reflexivity|]).
  all: try (destruct (start_close_keeps 1000 "Client disconnect" s) as [-> ->];
            split; [reflexivity|by left]).
  all: try (split; [reflexivity|by left]).
  all: split; [reflexivity|]; right; split; [by eexists|].
  all: unfold ws_is_open, readyState_of in *; cbn in *;
    repeat match goal with
           | H : ws (mgr _) = Some _ |- _ => rewrite H in *
           end;
    rewrite ?Hk in *; split; [congruence|]; by apply Nat.eqb_eq.
Qed.

(** X14. Sockets are never forgotten or rewritten: along any run every
    socket stays in place with its URL, and the frames handed to it only
    grow at the end.  A single step appends at most one frame, and only to
    the socket the manager currently holds while that socket is open. *)
Theorem frames_append_only h es w w' k s :
  run h es w = Some w' ->
  sockets w !! k = Some s ->
  (exists s', sockets w' !! k = Some s' /\ url s' = url s
              /\ sent s `prefix_of` sent s')
  /\ (forall e v v' s0, step h e v = Some v' -> sockets v !! k = Some s0 ->
        exists s1, sockets v' !! k = Some s1
          /\ (sent s1 = sent s0
              \/ (exists text, sent s1 = sent s0 ++ [text])
                 /\ ws (mgr v) = Some k /\ readyState s0 = OPEN)).
Proof.
  intros Hrun Hk. split.
  - revert w s Hrun Hk. induction es as [|e es IH]; intros w s Hrun Hk; cbn in Hrun.
    + injection Hrun as <-. exists s. repeat split; [exact Hk|reflexivity].
    + destruct (step h e w) as [w1|] eqn:Hs; [|discriminate].
      destruct (step_socket_kept _ _ _ _ _ _ Hs Hk) as (s1 & Hk1 & Hu1 & Hsent).
      destruct (IH w1 s1 Hrun Hk1) as (s' & Hk' & Hu' & Hpre).
      exists s'. repeat split; [exact Hk'|congruence|].
      etrans; [|exact Hpre].
      destruct Hsent as [->|[[text ->] _]]; [reflexivity|by apply prefix_app_r].
  - intros e v v' s0 Hs Hv.
    destruct (step_socket_kept _ _ _ _ _ _ Hs Hv) as (s1 & Hk1 & _ & Hsent).
    by exists s1.
Qed.

Lemma frames_append_only_witness :
  let es := [Call_send (JObj [("type", JStr "subscribe")]); Tick 30000; Timer_fire 1;
             Call_disconnect; Call_send JNull] in
  let w := after up_and_open in
  let w' := after (up_and_open ++ es) in
  run sample_host es w = Some w'
  /\ sockets w !! 0%nat = Some {| url := "ws://localhost:3000/ws/live"; readyState := OPEN;
                                  sent := []; close_requested := None;
                                  error_fired := false; close_fired := false |}
  /\ (sent <$> sockets w' !! 0%nat) = Some ["type=subscribe"; "type=ping"]
  /\ exists s', sockets w' !! 0%nat = Some s'
                /\ url s' = "ws://localhost:3000/ws/live"
                /\ [] `prefix_of` sent s'.
Proof.
  intros es w w'.
  assert (H1 : run sample_host es w = Some w') by (vm_compute; reflexivity).
  assert (H2 : sockets w !! 0%nat
               = Some {| url := "ws://localhost:3000/ws/live"; readyState := OPEN;
                         sent := []; close_requested := None;
                         error_fired := false; close_fired := false |})
    by (vm_compute; reflexivity).
  repeat apply conj; [exact H1 | exact H2 | vm_compute; reflexivity |].
  exact (proj1 (frames_append_only sample_host es w w' 0%nat _ H1 H2)).
Defined.

(** * Properties of the URL helpers (config.js) *)

Lemma strip_trailing_slash_cons c x :
  x <> EmptyString ->
  Config.strip_trailing_slash (String c x) = String c (Config.strip_trailing_slash x).
Proof. intros Hx. destruct x; [congruence|reflexivity]. Qed.

Lemma strip_trailing_slash_snoc b : Config.strip_trailing_slash (b +:+ "/") = b.
Proof.
  induction b as [|c b IH]; [reflexivity|].
  change (String c b +:+ "/") with (String c (b +:+ "/")).
  rewrite strip_trailing_slash_cons; [by rewrite IH|].
  by destruct b.
Qed.

Lemma strip_trailing_slash_id b :
  (forall b', b <> b' +:+ "/") -> Config.strip_trailing_slash b = b.
Proof.
  induction b as [|c b IH]; intros Hno; [reflexivity|].
  cbn [Config.strip_trailing_slash]. destruct b as [|c' r].
  - destruct (Ascii.eqb c "/") eqn:E; [|reflexivity].
    apply Ascii.eqb_eq in E. subst c. exfalso. by apply (Hno EmptyString).
  - f_equal. apply IH. intros b' Hb'. apply (Hno (String c b')).
    change (String c b' +:+ "/") with (String c (b' +:+ "/")). by rewrite Hb'.
Qed.

Lemma cleanPath_slash p : Config.cleanPath (String "/" p) = p.
Proof. reflexivity. Qed.

Lemma cleanPath_id p : (forall r, p <> String "/" r) -> Config.cleanPath p = p.
Proof.
  intros Hno. destruct p as [|c r]; [reflexivity|]. cbn.
  destruct (Ascii.eqb c "/") eqn:E; [|reflexivity].
  apply Ascii.eqb_eq in E. subst c. exfalso. by apply (Hno r).
Qed.

Lemma truthy_snoc b : Config.truthy (b +:+ "/") = true.
Proof. by destruct b. Qed.

Lemma append_assoc (a b c : string) : (a +:+ b) +:+ c = a +:+ (b +:+ c).
Proof.
  induction a as [|x a IH]; [reflexivity|].
  change (String x ((a +:+ b) +:+ c) = String x (a +:+ (b +:+ c))). by rewrite IH.
Qed.

(** X15. With a configured base URL, [buildWsUrl] removes at most one
    trailing slash from the base and at most one leading slash from the
    path, and joins the two with one slash.  For a non-empty base [b] that
    does not end in a slash and a path [p] that does not start with one,
    the bases [b] and [b/] with the paths [p] and [/p] all give [b/p];
    a doubled slash is kept, so the base [b//] or the path [//p] gives
    [b//p]. *)
Theorem buildWsUrl_joins_with_one_slash h c b p :
  Config.getEnvVar h "VITE_WS_URL" EmptyString = c ->
  Config.truthy b = true ->
  (forall b', b <> b' +:+ "/") ->
  (forall r, p <> String "/" r) ->
  (c = b \/ c = b +:+ "/" ->
     Config.buildWsUrl h p = b +:+ "/" +:+ p
     /\ Config.buildWsUrl h (String "/" p) = b +:+ "/" +:+ p
     /\ Config.buildWsUrl h (String "/" (String "/" p)) = b +:+ "//" +:+ p)
  /\ (c = b +:+ "//" ->
     Config.buildWsUrl h p = b +:+ "//" +:+ p
     /\ Config.buildWsUrl h (String "/" p) = b +:+ "//" +:+ p).
Proof.
  intros Hc Ht Hno Hp. unfold Config.buildWsUrl. cbn zeta. rewrite Hc.
  assert (H2 : b +:+ "//" = (b +:+ "/") +:+ "/") by (by rewrite append_assoc).
  split.
  - intros [->| ->].
    + rewrite Ht, (strip_trailing_slash_id b Hno), !cleanPath_slash, (cleanPath_id p Hp).
      repeat split; reflexivity.
    + rewrite truthy_snoc, strip_trailing_slash_snoc, !cleanPath_slash,
        (cleanPath_id p Hp).
      repeat split; reflexivity.
  - intros ->. rewrite H2, truthy_snoc, strip_trailing_slash_snoc, cleanPath_slash,
      (cleanPath_id p Hp), append_assoc. split; reflexivity.
Qed.

(** X16. [buildApiUrl] joins a configured base URL and the path in the
    same way: one trailing slash of the base and one leading slash of the
    path are removed, so [b] and [b/] with [p] and [/p] all give [b/p],
    and a doubled slash ([b//] or [//p]) is kept as [b//p]. *)
Theorem buildApiUrl_joins_with_one_slash h c b p :
  Config.getEnvVar h "VITE_API_URL" EmptyString = c ->
  Config.truthy b = true ->
  (forall b', b <> b' +:+ "/") ->
  (forall r, p <> String "/" r) ->
  (c = b \/ c = b +:+ "/" ->
     Config.buildApiUrl h p = b +:+ "/" +:+ p
     /\ Config.buildApiUrl h (String "/" p) = b +:+ "/" +:+ p
     /\ Config.buildApiUrl h (String "/" (String "/" p)) = b +:+ "//" +:+ p)
  /\ (c = b +:+ "//" ->
     Config.buildApiUrl h p = b +:+ "//" +:+ p
     /\ Config.buildApiUrl h (String "/" p) = b +:+ "//" +:+ p).
Proof.
  intros Hc Ht Hno Hp. unfold Config.buildApiUrl. cbn zeta. rewrite Hc.
  assert (H2 : b +:+ "//" = (b +:+ "/") +:+ "/") by (by rewrite append_assoc).
  split.
  - intros [->| ->].
    + rewrite Ht, (strip_trailing_slash_id b Hno), !cleanPath_slash, (cleanPath_id p Hp).
      repeat split; reflexivity.
    + rewrite truthy_snoc, strip_trailing_slash_snoc, !cleanPath_slash,
        (cleanPath_id p Hp).
      repeat split; reflexivity.
  - intros ->. rewrite H2, truthy_snoc, strip_trailing_slash_snoc, cleanPath_slash,
      (cleanPath_id p Hp), append_assoc. split; reflexivity.
Qed.

Lemma no_trailing_slash_by_strip b :
  Config.strip_trailing_slash b = b -> b <> EmptyString -> forall b', b <> b' +:+ "/".
Proof.
  intros Hs Hne b' E. rewrite E, strip_trailing_slash_snoc in Hs.
  clear -Hs. induction b' as [|c b' IH]; simpl in Hs; [discriminate Hs|].
  injection Hs as Hs. by apply IH.
Qed.

Lemma buildWsUrl_joins_with_one_slash_witness :
  let h := configured_host "VITE_WS_URL" "wss://api.example.org//" in
  Config.getEnvVar h "VITE_WS_URL" EmptyString = "wss://api.example.org//"
  /\ Config.truthy "wss://api.example.org" = true
  /\ (forall b', "wss://api.example.org" <> b' +:+ "/")
  /\ (forall r, "live" <> String "/" r)
  /\ Config.buildWsUrl h (String "/" "live") = "wss://api.example.org//live".
Proof.
  intros h.
  assert (H1 : Config.getEnvVar h "VITE_WS_URL" EmptyString = "wss://api.example.org//")
    by reflexivity.
  assert (H3 : Config.truthy "wss://api.example.org" = true) by reflexivity.
  assert (H4 : forall b', "wss://api.example.org" <> b' +:+ "/")
    by (apply no_trailing_slash_by_strip; [reflexivity|discriminate]).
  assert (H5 : forall r, "live" <> String "/" r) by (intros r; discriminate).
  repeat apply conj; try assumption.
  exact (proj2 (proj2
    (buildWsUrl_joins_with_one_slash h _ "wss://api.example.org" "live" H1 H3 H4 H5)
    eq_refl)).
Defined.

Lemma buildApiUrl_joins_with_one_slash_witness :
  let h := configured_host "VITE_API_URL" "https://api.example.org/v1/" in
  Config.getEnvVar h "VITE_API_URL" EmptyString = "https://api.example.org/v1/"
  /\ Config.truthy "https://api.example.org/v1" = true
  /\ (forall b', "https://api.example.org/v1" <> b' +:+ "/")
  /\ (forall r, "dashboard/analytics" <> String "/" r)
  /\ Config.buildApiUrl h (String "/" "dashboard/analytics")
     = "https://api.example.org/v1/dashboard/analytics".
Proof.
  intros h.
  assert (H1 : Config.getEnvVar h "VITE_API_URL" EmptyString
               = "https://api.example.org/v1/") by reflexivity.
  assert (H3 : Config.truthy "https://api.example.org/v1" = true) by reflexivity.
  assert (H4 : forall b', "https://api.example.org/v1" <> b' +:+ "/")
    by (apply no_trailing_slash_by_strip; [reflexivity|discriminate]).
  assert (H5 : forall r, "dashboard/analytics" <> String "/" r)
    by (intros r; discriminate).
  repeat apply conj; try assumption.
  exact (proj1 (proj2 (proj1
    (buildApiUrl_joins_with_one_slash h _ "https://api.example.org/v1"
       "dashboard/analytics" H1 H3 H4 H5)
    (or_intror eq_refl)))).
Defined.

Lemma append_nonempty (a b : string) : b <> EmptyString -> a +:+ b <> EmptyString.
Proof. intros Hb. destruct a; [exact Hb|discriminate]. Qed.

Lemma strip_trailing_slash_app a b :
  b <> EmptyString ->
  Config.strip_trailing_slash (a +:+ b) = a +:+ Config.strip_trailing_slash b.
Proof.
  intros Hb. induction a as [|x a IH]; [reflexivity|].
  change (String x a +:+ b) with (String x (a +:+ b)).
  rewrite strip_trailing_slash_cons by (by apply append_nonempty).
  rewrite IH. reflexivity.
Qed.

(** X17. Without a configured base ([VITE_WS_URL], [VITE_API_URL] unset or
    empty) both helpers build a same-origin URL on the page's host and
    port: the socket URL takes [wss:] exactly when the page is served over
    [https:] and keeps the base's [/ws] segment in front of the path, the
    API URL takes the page's [http:]/[https:] and [/api]; the port is left
    out when the page has none. *)
Theorem same_origin_urls h p :
  Config.getEnvVar h "VITE_WS_URL" EmptyString = EmptyString ->
  Config.getEnvVar h "VITE_API_URL" EmptyString = EmptyString ->
  let secure := String.eqb (location_protocol h) "https:" in
  let authority :=
    "//" +:+ location_hostname h
      +:+ (if Config.truthy (location_port h) then ":" +:+ location_port h
           else EmptyString) in
  Config.buildWsUrl h p
  = (if secure then "wss:" else "ws:") +:+ authority +:+ "/ws/" +:+ Config.cleanPath p
  /\ Config.buildApiUrl h p
     = (if secure then "https:" else "http:") +:+ authority +:+ "/api/"
         +:+ Config.cleanPath p.
Proof.
  intros Hws Hapi secure authority. subst secure authority.
  unfold Config.buildWsUrl, Config.buildApiUrl,
    Config.sameOriginWsUrl, Config.sameOriginApiUrl. cbn zeta.
  rewrite Hws, Hapi. cbn [Config.truthy].
  rewrite !strip_trailing_slash_app
    by (repeat (first [discriminate | apply append_nonempty])).
  cbn [Config.strip_trailing_slash].
  rewrite !append_assoc. split; reflexivity.
Qed.

Lemma same_origin_urls_witness :
  Config.getEnvVar sample_host "VITE_WS_URL" EmptyString = EmptyString
  /\ Config.getEnvVar sample_host "VITE_API_URL" EmptyString = EmptyString
  /\ Config.buildWsUrl sample_host "/ws" = "ws://localhost:3000/ws/ws"
  /\ Config.buildApiUrl sample_host "/dashboard/analytics"
     = "http://localhost:3000/api/dashboard/analytics".
Proof.
  assert (H1 : Config.getEnvVar sample_host "VITE_WS_URL" EmptyString = EmptyString)
    by reflexivity.
  assert (H2 : Config.getEnvVar sample_host "VITE_API_URL" EmptyString = EmptyString)
    by reflexivity.
  repeat apply conj; try assumption.
  - exact (proj1 (same_origin_urls sample_host "/ws" H1 H2)).
  - exact (proj2 (same_origin_urls sample_host "/dashboard/analytics" H1 H2)).
Defined.

Lemma truthy_entry_truthy key env v :
  Config.truthy_entry key env = Some v ->
  Config.truthy v = true /\ exists e, env = Some e /\ Config.env_lookup key e = Some v.
Proof.
  unfold Config.truthy_entry. destruct env as [e|]; [|discriminate].
  destruct (Config.env_lookup key e) as [x|] eqn:E; [|discriminate].
  destruct (Config.truthy x) eqn:Hx; [|discriminate].
  intros [= <-]. split; [exact Hx|]. by exists e.
Qed.

(** X18. [getEnvVar] never hands out an empty value from the environment:
    its result is the default, or a non-empty value bound to the key in
    [import.meta.env] or [window.__ENV]; a non-empty build-time value
    always wins over [window.__ENV]. *)
Theorem getEnvVar_sources h key d :
  let v := Config.getEnvVar h key d in
  (v = d
   \/ (Config.truthy v = true
       /\ exists e, (import_meta_env h = Some e \/ window_ENV h = Some e)
                    /\ Config.env_lookup key e = Some v))
  /\ (v = EmptyString -> d = EmptyString)
  /\ (forall e x, import_meta_env h = Some e -> Config.env_lookup key e = Some x ->
        Config.truthy x = true -> v = x).
Proof.
  intros v. subst v. unfold Config.getEnvVar.
  destruct (Config.truthy_entry key (import_meta_env h)) as [v1|] eqn:E1.
  - destruct (truthy_entry_truthy _ _ _ E1) as [Ht (e & He & Hl)].
    repeat apply conj.
    + right. split; [exact Ht|]. exists e. auto.
    + intros ->. discriminate Ht.
    + intros e' x He' Hx Htx. unfold Config.truthy_entry in E1.
      rewrite He', Hx, Htx in E1. congruence.
  - destruct (Config.truthy_entry key (window_ENV h)) as [v2|] eqn:E2.
    + destruct (truthy_entry_truthy _ _ _ E2) as [Ht (e & He & Hl)].
      repeat apply conj.
      * right. split; [exact Ht|]. exists e. auto.
      * intros ->. discriminate Ht.
      * intros e' x He' Hx Htx. unfold Config.truthy_entry in E1.
        rewrite He', Hx, Htx in E1. discriminate E1.
    + repeat apply conj; [by left|tauto|].
      intros e' x He' Hx Htx. unfold Config.truthy_entry in E1.
      rewrite He', Hx, Htx in E1. discriminate E1.
Qed.

(** X19. [isDevelopment] and [isProduction] are never both true, and with
    [NODE_ENV] unset (or empty) in both environments the mode is
    development. *)
Theorem environment_mode_exclusive h :
  Config.isDevelopment h && Config.isProduction h = false
  /\ (Config.truthy_entry "NODE_ENV" (import_meta_env h) = None ->
      Config.truthy_entry "NODE_ENV" (window_ENV h) = None ->
      Config.isDevelopment h = true /\ Config.isProduction h = false
      /\ Config.NODE_ENV (Config.getEnvConfig h) = "development").
Proof.
  unfold Config.isDevelopment, Config.isProduction, Config.getEnvConfig. cbn. split.
  - destruct (String.eqb _ "development") eqn:E; [|reflexivity].
    apply String.eqb_eq in E. rewrite E. reflexivity.
  - intros H1 H2. unfold Config.getEnvVar. rewrite H1, H2. repeat split; reflexivity.
Qed.

(** * Properties of [Dashboard.formatDuration] *)

Example formatDuration_samples :
  map Dashboard.formatDuration [245; 189; 367; 59; 60; 3600; 0; -5]
  = ["4:05"; "3:09"; "6:07"; "0:59"; "1:00"; "60:00"; "0:00"; "0:00"].
Proof. reflexivity. Qed.

Lemma string_length_append (a b : string) :
  String.length (a +:+ b) = (String.length a + String.length b)%nat.
Proof.
  induction a as [|x a IH]; [reflexivity|].
  change (String x a +:+ b) with (String x (a +:+ b)). cbn. by rewrite IH.
Qed.

Lemma append_inj_suffix (a1 a2 b1 b2 : string) :
  a1 +:+ b1 = a2 +:+ b2 -> String.length b1 = String.length b2 ->
  a1 = a2 /\ b1 = b2.
Proof.
  revert a2. induction a1 as [|x a1 IH]; intros [|y a2] E Hlen.
  - split; [reflexivity|exact E].
  - exfalso. change (EmptyString +:+ b1) with b1 in E. rewrite E in Hlen.
    change (String y a2 +:+ b2) with (String y (a2 +:+ b2)) in Hlen.
    cbn in Hlen. rewrite string_length_append in Hlen. lia.
  - exfalso. change (EmptyString +:+ b2) with b2 in E. rewrite <- E in Hlen.
    change (String x a1 +:+ b1) with (String x (a1 +:+ b1)) in Hlen.
    cbn in Hlen. rewrite string_length_append in Hlen. lia.
  - change (String x (a1 +:+ b1) = String y (a2 +:+ b2)) in E.
    injection E as -> E. destruct (IH a2 E Hlen) as [-> ->]. split; reflexivity.
Qed.

Lemma decimal_inj a b :
  0 <= a -> 0 <= b -> Dashboard.decimal a = Dashboard.decimal b -> a = b.
Proof.
  intros Ha Hb E. unfold Dashboard.decimal in E.
  apply (f_equal NilEmpty.uint_of_string) in E. rewrite !NilEmpty.usu in E.
  injection E as E. apply Unsigned.to_uint_inj in E. by apply Z2N.inj.
Qed.

Lemma seconds_field k :
  (k < 60)%nat ->
  String.length (Dashboard.padStart2 (Dashboard.decimal (Z.of_nat k))) = 2%nat
  /\ Dashboard.read_decimal (Dashboard.padStart2 (Dashboard.decimal (Z.of_nat k)))
     = Z.of_nat k.
Proof.
  intros Hk. do 60 (destruct k as [|k]; [split; vm_compute; reflexivity|]). lia.
Qed.

Lemma seconds_field_Z r :
  0 <= r < 60 ->
  String.length (Dashboard.padStart2 (Dashboard.decimal r)) = 2%nat
  /\ Dashboard.read_decimal (Dashboard.padStart2 (Dashboard.decimal r)) = r.
Proof.
  intros Hr. rewrite <- (Z2Nat.id r) by lia. apply seconds_field. lia.
Qed.

Lemma formatDuration_formula s :
  0 <= s ->
  Dashboard.formatDuration s
  = Dashboard.decimal (s / 60) +:+ ":"
      +:+ Dashboard.padStart2 (Dashboard.decimal (s mod 60)).
Proof.
  intros Hs. unfold Dashboard.formatDuration.
  destruct (s =? 0)%Z eqn:E0.
  - apply Z.eqb_eq in E0. subst s. reflexivity.
  - assert ((s <? 0)%Z = false) as -> by (apply Z.ltb_ge; lia). reflexivity.
Qed.

(** X20. On whole seconds [formatDuration] loses nothing: two different
    non-negative durations are displayed differently.  In particular only
    a zero duration is shown as "0:00". *)
Theorem formatDuration_injective s1 s2 :
  0 <= s1 < 2 ^ 53 -> 0 <= s2 < 2 ^ 53 ->
  (Dashboard.formatDuration s1 = Dashboard.formatDuration s2 -> s1 = s2)
  /\ (Dashboard.formatDuration s1 = "0:00" -> s1 = 0).
Proof.
  intros H1 H2.
  assert (Hinj : forall a b, 0 <= a -> 0 <= b ->
            Dashboard.formatDuration a = Dashboard.formatDuration b -> a = b).
  { clear. intros s1 s2 H1 H2 E. rewrite !formatDuration_formula in E by lia.
    pose proof (Z.mod_pos_bound s1 60 ltac:(lia)) as Hr1.
    pose proof (Z.mod_pos_bound s2 60 ltac:(lia)) as Hr2.
    destruct (seconds_field_Z _ Hr1) as [Hl1 Hv1].
    destruct (seconds_field_Z _ Hr2) as [Hl2 Hv2].
    apply append_inj_suffix in E.
    - destruct E as [Em Es].
      apply decimal_inj in Em; [|apply Z.div_pos; lia|apply Z.div_pos; lia].
      change (":" +:+ ?x) with (String ":" x) in Es.
      assert (Er : s1 mod 60 = s2 mod 60).
      { rewrite <- Hv1, <- Hv2. f_equal. by injection Es. }
      rewrite (Z.div_mod s1 60), (Z.div_mod s2 60) by lia. rewrite Em, Er. reflexivity.
    - rewrite !string_length_append, Hl1, Hl2. reflexivity. }
  split.
  - apply Hinj; lia.
  - intros E. apply (Hinj s1 0); [lia|lia|exact E].
Qed.

Lemma formatDuration_injective_witness :
  0 <= 245 < 2 ^ 53 /\ 0 <= 0 < 2 ^ 53
  /\ (Dashboard.formatDuration 245 = Dashboard.formatDuration 0 -> 245 = 0)
  /\ Dashboard.formatDuration 245 = "4:05".
Proof.
  assert (H1 : 0 <= 245 < 2 ^ 53) by (split; [lia|reflexivity]).
  assert (H2 : 0 <= 0 < 2 ^ 53) by (split; [lia|reflexivity]).
  repeat apply conj; try apply H1; try apply H2; [|reflexivity].
  exact (proj1 (formatDuration_injective 245 0 H1 H2)).
Defined.

(** X21. For a whole number of seconds [formatDuration] shows minutes, a
    colon and exactly two digits of seconds that read back as a value
    below 60; the shown minutes and seconds add up to the duration.  A
    negative duration is shown like zero, as "0:00". *)
Theorem formatDuration_layout s :
  0 <= s < 2 ^ 53 ->
  (exists m ss,
     Dashboard.formatDuration s = Dashboard.decimal m +:+ ":" +:+ ss
     /\ String.length ss = 2%nat
     /\ 0 <= Dashboard.read_decimal ss < 60
     /\ 60 * m + Dashboard.read_decimal ss = s)
  /\ Dashboard.formatDuration (- s) = "0:00".
Proof.
  intros Hs. split.
  - pose proof (Z.mod_pos_bound s 60 ltac:(lia)) as Hr.
    destruct (seconds_field_Z _ Hr) as [Hl Hv].
    exists (s / 60), (Dashboard.padStart2 (Dashboard.decimal (s mod 60))).
    rewrite formatDuration_formula by lia. rewrite Hl, Hv.
    repeat split; try lia. symmetry. apply Z.div_mod. lia.
  - unfold Dashboard.formatDuration.
    destruct (- s =? 0)%Z eqn:E0; [reflexivity|].
    assert ((- s <? 0)%Z = true) as ->; [|reflexivity].
    apply Z.ltb_lt. apply Z.eqb_neq in E0. lia.
Qed.

Lemma formatDuration_layout_witness :
  0 <= 3725 < 2 ^ 53
  /\ Dashboard.formatDuration 3725 = "62:05"
  /\ Dashboard.formatDuration (- 3725) = "0:00".
Proof.
  assert (H : 0 <= 3725 < 2 ^ 53) by (split; [lia|reflexivity]).
  repeat apply conj; try apply H; [reflexivity|].
  exact (proj2 (formatDuration_layout 3725 H)).
Defined.

(** * A reconnect that fires late *)

(** X22. A pending reconnect timer survives [connect] and open events:
    [connect] never touches the timer table and an open event cancels
    heartbeat timers only.  When the timer fires, the failure counter is
    incremented first; [connect()] is then a no-op if [isConnecting] is set
    or the held socket is open, so the world differs from the one before
    only in the counter and the fired timer, and in every other state (also
    while the held socket is still connecting but the flag has been
    cleared) it constructs a socket for the default path. *)
Theorem late_reconnect_only_bumps_counter h w :
  reachable h w ->
  (forall p, timers (exec (connect h p) w) = timers w
             /\ reconnectTimeout (mgr (exec (connect h p) w))
                = reconnectTimeout (mgr w))
  /\ (forall k w', step h (Ws_open k) w = Some w' ->
        pending Reconnect (timers w') = pending Reconnect (timers w)
        /\ reconnectTimeout (mgr w') = reconnectTimeout (mgr w))
  /\ (forall id t w',
        find_timer id (timers w) = Some t -> task t = Reconnect ->
        step h (Timer_fire id) w = Some w' ->
        reconnectAttempts (mgr w') = S (reconnectAttempts (mgr w))
        /\ (isConnecting (mgr w) = true \/ getState w = "connected" ->
              w' = with_mgr bump (host_fired t w)
              /\ sockets w' = sockets w /\ ws (mgr w') = ws (mgr w))
        /\ (isConnecting (mgr w) = false -> getState w <> "connected" ->
            WebSocket_accepts h (Config.buildWsUrl h "/ws") = true ->
              sockets w' = sockets w ++ [fresh_socket (Config.buildWsUrl h "/ws")]
              /\ ws (mgr w') = Some (length (sockets w)))).
Proof.
  intros Hreach.
  pose proof (wf_timers _ (reachable_wf _ _ Hreach)) as Hok.
  refine (conj _ (conj _ _)).
  - intros p. rewrite exec_connect.
    destruct (isConnecting (mgr w) || ws_is_open w); [by split|].
    cbn. destruct (WebSocket_accepts h _); by split.
  - intros k w' Hs. step_inv Hs. rewrite onopen_eq. cbn. split; [|reflexivity].
    rewrite pending_app. cbn. rewrite app_nil_r.
    by apply (pending_stopped Reconnect w).
  - intros id t w' Hfind Htask Hs. cbn in Hs. rewrite Hfind in Hs.
    destruct (due t <=? clock w)%Z; [|discriminate Hs]. injection Hs as <-.
    rewrite Htask, run_task_eq, exec_connect.
    assert (Hflag : isConnecting (mgr (with_mgr bump (host_fired t w)))
                    = isConnecting (mgr w)) by reflexivity.
    assert (Hopen : ws_is_open (with_mgr bump (host_fired t w)) = ws_is_open w)
      by reflexivity.
    rewrite Hflag, Hopen. refine (conj _ (conj _ _)).
    + destruct (isConnecting (mgr w) || ws_is_open w); [reflexivity|].
      cbn. destruct (WebSocket_accepts h _); reflexivity.
    + intros Hbusy.
      assert (isConnecting (mgr w) || ws_is_open w = true) as ->.
      { destruct Hbusy as [Hc|Hc].
        - by rewrite Hc.
        - apply getState_connected in Hc. rewrite Hc. apply orb_true_r. }
      by repeat split.
    + intros Hc Hst Hacc.
      assert (ws_is_open w = false) as Hno.
      { destruct (ws_is_open w) eqn:E; [|reflexivity].
        apply getState_connected in E. contradiction. }
      rewrite Hc, Hno. cbn. rewrite Hacc. by split.
Qed.

Lemma late_reconnect_only_bumps_counter_witness :
  let es := up_and_open ++ [Tick 30000; Timer_fire 1; Tick 5000; Timer_fire 2;
                            Tick 1000; Timer_fire 3; Ws_open 1%nat;
                            Ws_close 0%nat 1006 EmptyString; Tick 1000] in
  let w := after es in
  let t := one_shot 6 Reconnect 1000 36000 in
  let w' := after (es ++ [Timer_fire 6]) in
  reachable sample_host w
  /\ find_timer 6 (timers w) = Some t
  /\ step sample_host (Timer_fire 6) w = Some w'
  /\ getState w = "connected"
  /\ reconnectAttempts (mgr w) = 0%nat
  /\ reconnectAttempts (mgr w') = 1%nat
  /\ sockets w' = sockets w.
Proof.
  intros es w t w'.
  assert (H1 : reachable sample_host w) by (exists es; vm_compute; reflexivity).
  assert (H2 : find_timer 6 (timers w) = Some t) by (vm_compute; reflexivity).
  assert (H3 : step sample_host (Timer_fire 6) w = Some w') by (vm_compute; reflexivity).
  assert (H4 : getState w = "connected") by (vm_compute; reflexivity).
  assert (H5 : reconnectAttempts (mgr w) = 0%nat) by (vm_compute; reflexivity).
  pose proof (proj2 (proj2 (late_reconnect_only_bumps_counter sample_host w H1))
                6%positive t w' H2 eq_refl H3) as (Hn & Hbusy & _).
  refine (conj H1 (conj H2 (conj H3 (conj H4 (conj H5 (conj _ _)))))).
  - rewrite Hn, H5. reflexivity.
  - exact (proj1 (proj2 (Hbusy (or_intror H4)))).
Defined.
